(** * amua-recorder: a shallow embedding of [record.py]

    The recorder scans for an Amua peripheral, subscribes to its audio
    characteristic, decodes each notification into 121 PCM samples, keeps
    a capture buffer and a gated recording buffer, and writes WAV files.

    Conventions of the embedding.
    - A Python [int] is a [Z]; a [bytes]/[bytearray] is a [list byte].
    - A [datetime] is a [Z], the number of microseconds on the local
      clock.  [(a - b).total_seconds() < 2] divides an integer number of
      microseconds by 10^6 with correct rounding, so it holds exactly
      when [a - b < 2000000].
    - The [state] dictionary of [main] is the record [State]; code that
      mutates it is written in a state-and-exception monad.
    - The BLE transport, the clock and the keyboard are the environment:
      their answers are inputs of the functions that consult them.
    - Logging is not modelled, except where formatting a log line can
      raise. *)

From Stdlib Require Import ZArith List Bool Lia.
From Stdlib.Strings Require Import Ascii String Byte.
Import ListNotations.
Open Scope Z_scope.

(** ** Exceptions and the state monad *)

Inductive exn : Type :=
| struct_error   (* struct.error: wrong buffer size, value out of range *)
| TypeError      (* an operand of the wrong type, here [datetime - None] *)
| BleakError     (* any failure reported by the BLE transport *)
| OSError.       (* the file system refuses to open a file *)

Inductive result (A : Type) : Type :=
| Ok (a : A)
| Raise (e : exn).
Arguments Ok {A} a.
Arguments Raise {A} e.

Section StateExn.
Context {St : Type}.

Definition M (A : Type) : Type := St -> result A * St.

Definition ret {A} (a : A) : M A := fun s => (Ok a, s).

Definition bind {A B} (m : M A) (k : A -> M B) : M B :=
  fun s =>
    match m s with
    | (Ok a, s') => k a s'
    | (Raise e, s') => (Raise e, s')
    end.

Definition raise {A} (e : exn) : M A := fun s => (Raise e, s).

Definition get : M St := fun s => (Ok s, s).

Definition modify (f : St -> St) : M unit := fun s => (Ok tt, f s).

(** [try: m except Exception: h] *)
Definition try_except {A} (m : M A) (h : exn -> M A) : M A :=
  fun s =>
    match m s with
    | (Ok a, s') => (Ok a, s')
    | (Raise e, s') => h e s'
    end.

(** A pure computation that may raise. *)
Definition lift {A} (r : result A) : M A := fun s => (r, s).
End StateExn.
Arguments M : clear implicits.

Declare Scope monad_scope.
Delimit Scope monad_scope with monad.
Notation "x <- m ;; k" := (bind m (fun x => k))
  (at level 61, m at next level, right associativity) : monad_scope.
Notation "m ;;; k" := (bind m (fun _ => k))
  (at level 61, right associativity) : monad_scope.
Open Scope monad_scope.

(** ** The [struct] formats used by the recorder *)

Module Struct.

Definition byte_val (b : byte) : Z := Z.of_N (Byte.to_N b).

Definition byte_of_Z (z : Z) : byte :=
  match Byte.of_N (Z.to_N (z mod 256)) with
  | Some b => b
  | None => x00
  end.

(** Python's [l[a:b]] for [0 <= a <= b]: indices past the end are
    clamped, never an error. *)
Definition slice {A} (a b : nat) (l : list A) : list A :=
  firstn (b - a) (skipn a l).

Definition u16le (lo hi : byte) : Z := byte_val lo + 256 * byte_val hi.

Definition s16le (lo hi : byte) : Z :=
  let u := u16le lo hi in
  if u <? 32768 then u else u - 65536.

(** [struct.unpack('<H', bs)[0]] *)
Definition unpack_H (bs : list byte) : result Z :=
  match bs with
  | [lo; hi] => Ok (u16le lo hi)
  | _ => Raise struct_error
  end.

Fixpoint decode_h (bs : list byte) : list Z :=
  match bs with
  | lo :: hi :: rest => s16le lo hi :: decode_h rest
  | _ => []
  end.

(** [struct.unpack('<nh', bs)]: the buffer must hold exactly [2n]
    bytes. *)
Definition unpack_h (n : nat) (bs : list byte) : result (list Z) :=
  if Nat.eqb (List.length bs) (2 * n) then Ok (decode_h bs)
  else Raise struct_error.

Definition int16 (v : Z) : bool := (-32768 <=? v) && (v <=? 32767).

Definition encode_h (v : Z) : list byte :=
  [byte_of_Z v; byte_of_Z (v / 256)].

(** [struct.pack('<nh', *vs)] with [n = len(vs)]: every value must fit
    a signed 16-bit integer. *)
Definition pack_h (vs : list Z) : result (list byte) :=
  if forallb int16 vs then Ok (flat_map encode_h vs)
  else Raise struct_error.

End Struct.
Import Struct.

(** ** Session state *)

Definition SAMPLE_RATE : Z := 32000.

Record State : Type := mkState {
  audio_samples : list Z;
  recording : list Z;
  is_recording : bool;
  is_streaming : bool;
  start_time : option Z
}.

(** The dictionary built at the top of [main]. *)
Definition initial_state : State :=
  {| audio_samples := [];
     recording := [];
     is_recording := false;
     is_streaming := false;
     start_time := None |}.

Definition extend_audio_samples (xs : list Z) (s : State) : State :=
  {| audio_samples := audio_samples s ++ xs;
     recording := recording s;
     is_recording := is_recording s;
     is_streaming := is_streaming s;
     start_time := start_time s |}.

Definition extend_recording (xs : list Z) (s : State) : State :=
  {| audio_samples := audio_samples s;
     recording := recording s ++ xs;
     is_recording := is_recording s;
     is_streaming := is_streaming s;
     start_time := start_time s |}.

Definition set_recording (xs : list Z) (s : State) : State :=
  {| audio_samples := audio_samples s;
     recording := xs;
     is_recording := is_recording s;
     is_streaming := is_streaming s;
     start_time := start_time s |}.

Definition set_is_recording (b : bool) (s : State) : State :=
  {| audio_samples := audio_samples s;
     recording := recording s;
     is_recording := b;
     is_streaming := is_streaming s;
     start_time := start_time s |}.

Definition set_is_streaming (b : bool) (s : State) : State :=
  {| audio_samples := audio_samples s;
     recording := recording s;
     is_recording := is_recording s;
     is_streaming := b;
     start_time := start_time s |}.

Definition set_start_time (t : Z) (s : State) : State :=
  {| audio_samples := audio_samples s;
     recording := recording s;
     is_recording := is_recording s;
     is_streaming := is_streaming s;
     start_time := Some t |}.

(** ** The notification handler *)

(** [now - start] on datetimes, in microseconds; subtracting [None]
    from a datetime raises. *)
Definition timedelta (now : Z) (start : option Z) : result Z :=
  match start with
  | Some t0 => Ok (now - t0)
  | None => Raise TypeError
  end.

(** Two seconds, the settling time after a stream start. *)
Definition SETTLE_US : Z := 2000000.

(** The two [struct.unpack] lines of the handler: the sequence number
    from [data[0:2]] and 121 samples from [data[1:243]]. *)
Definition decode_packet (data : list byte) : result (Z * list Z) :=
  match unpack_H (slice 0 2 data) with
  | Raise e => Raise e
  | Ok seq_num =>
      match unpack_h 121 (slice 1 243 data) with
      | Raise e => Raise e
      | Ok samples => Ok (seq_num, samples)
      end
  end.

(** [notification_handler(sender, data, state)], called when [dt.now()]
    reads [now]. *)
Definition notification_handler (now : Z) (data : list byte)
  : M State unit :=
  s <- get ;;
  elapsed <- lift (timedelta now (start_time s)) ;;
  if elapsed <? SETTLE_US then ret tt
  else
    p <- lift (decode_packet data) ;;
    modify (extend_audio_samples (snd p)) ;;;
    s' <- get ;;
    if is_recording s' then modify (extend_recording (snd p))
    else ret tt.

(** A notification: the clock reading at delivery and the payload. *)
Definition Notification : Type := (Z * list byte)%type.

(** The transport calls the handler once per notification, in arrival
    order; an exception raised by the handler goes back to the transport
    and the dictionary stays as the handler left it. *)
Fixpoint deliver (ns : list Notification) (s : State)
  : list (result unit) * State :=
  match ns with
  | [] => ([], s)
  | (now, data) :: rest =>
      let '(r, s1) := notification_handler now data s in
      let '(rs, s2) := deliver rest s1 in
      (r :: rs, s2)
  end.

(** How many samples the decoder yields for a packet. *)
Definition samples_in (data : list byte) : nat :=
  match decode_packet data with
  | Ok (_, samples) => List.length samples
  | Raise _ => 0%nat
  end.

(** Whether a notification arrives at least two seconds after [t0]. *)
Definition settled (t0 : Z) (n : Notification) : bool :=
  negb (fst n - t0 <? SETTLE_US).

Fixpoint samples_after (t0 : Z) (ns : list Notification) : nat :=
  match ns with
  | [] => 0%nat
  | n :: rest =>
      ((if settled t0 n then samples_in (snd n) else 0)
       + samples_after t0 rest)%nat
  end.

(** The state after the handler has accepted a batch of samples. *)
Definition appended (samples : list Z) (s : State) : State :=
  {| audio_samples := audio_samples s ++ samples;
     recording :=
       if is_recording s then recording s ++ samples else recording s;
     is_recording := is_recording s;
     is_streaming := is_streaming s;
     start_time := start_time s |}.

(** Every sample the handler stores is a signed 16-bit value. *)
Definition buffers_int16 (s : State) : Prop :=
  Forall (fun v => int16 v = true) (audio_samples s) /\
  Forall (fun v => int16 v = true) (recording s).

(** ** The environment of the command loop *)

Inductive GattOp : Type :=
| StartNotify
| WriteGattChar (payload : list byte)
| StopNotify.

(** What the [wave] writer holds when it is closed: the parameters it
    declares in the header and the frames it was given. *)
Record Wave_write : Type := mkWave {
  nchannels : Z;
  sampwidth : Z;
  framerate : Z;
  frames : list byte
}.

Record Env : Type := mkEnv {
  notifying : bool;                      (* the handler is subscribed *)
  gatt_log : list (GattOp * bool);       (* operations attempted and whether
                                            they succeeded, oldest first *)
  callback_log : list (result unit);     (* outcomes of the handler calls,
                                            oldest first *)
  files : list (string * Wave_write)     (* files written, newest first *)
}.

Definition initial_env : Env :=
  {| notifying := false; gatt_log := []; callback_log := []; files := [] |}.

Definition World : Type := (State * Env)%type.

(** What the environment answers during one turn of the command loop. *)
Record Answers : Type := mkAnswers {
  fails : GattOp -> bool;                 (* the transport raises on it *)
  inflight : GattOp -> list Notification; (* notifications dispatched by the
                                             event loop while it is awaited *)
  idle : list Notification;               (* notifications dispatched while
                                             the loop waits for a command *)
  clock : Z;                              (* [dt.now()] in the stream calls *)
  typed_filename : string                 (* the answer to the file prompt *)
}.

Definition on_state {A} (m : M State A) : M World A :=
  fun w =>
    let '(r, s') := m (fst w) in (r, (s', snd w)).

Definition on_env {A} (m : M Env A) : M World A :=
  fun w =>
    let '(r, e') := m (snd w) in (r, (fst w, e')).

(** An [await]: while the coroutine is suspended the event loop runs the
    handler on the notifications that arrive, if it is subscribed. *)
Definition suspend (ns : list Notification) : M World unit :=
  fun w =>
    let '(s, e) := w in
    if notifying e then
      let '(rs, s') := deliver ns s in
      (Ok tt,
       (s', {| notifying := notifying e;
               gatt_log := gatt_log e;
               callback_log := callback_log e ++ rs;
               files := files e |}))
    else (Ok tt, w).

(** What [suspend] leaves behind: the state after the deliveries and
    the environment with their outcomes logged. *)
Definition heard (ns : list Notification) (e : Env) (s : State) : State :=
  if notifying e then snd (deliver ns s) else s.

Definition logged (ns : list Notification) (s : State) (e : Env) : Env :=
  if notifying e then
    {| notifying := notifying e;
       gatt_log := gatt_log e;
       callback_log := callback_log e ++ fst (deliver ns s);
       files := files e |}
  else e.

Definition after_op (op : GattOp) (ok : bool) (e : Env) : Env :=
  {| notifying :=
       if ok then
         match op with
         | StartNotify => true
         | StopNotify => false
         | WriteGattChar _ => notifying e
         end
       else notifying e;
     gatt_log := gatt_log e ++ [(op, ok)];
     callback_log := callback_log e;
     files := files e |}.

(** One awaited call on the client. *)
Definition gatt (a : Answers) (op : GattOp) : M World unit :=
  suspend (inflight a op) ;;;
  if fails a op then
    on_env (modify (after_op op false)) ;;; raise BleakError
  else on_env (modify (after_op op true)).

(** ** Stream session *)

Definition start_stream (a : Answers) : M World bool :=
  try_except
    (gatt a StartNotify ;;;
     gatt a (WriteGattChar [x01]) ;;;
     on_state (modify (set_start_time (clock a))) ;;;
     ret true)
    (fun _ => ret false).

(** [stop_stream(client, is_streaming, start_time)]: both flags are
    passed by value. The log line formats [dt.now() - start_time]. *)
Definition stop_stream (a : Answers) (streaming : bool) (start : option Z)
  : M World bool :=
  if negb streaming then ret false
  else
    gatt a (WriteGattChar [x00]) ;;;
    gatt a StopNotify ;;;
    _ <- lift (timedelta (clock a) start) ;;
    ret false.

(** ** Recording controller *)

Definition start_recording : M State bool :=
  modify (set_recording []) ;;; ret true.

Definition stop_recording (rec : list Z) : M State bool := ret false.

(** ** WAV encoder *)

Definition wave_open : Wave_write :=
  {| nchannels := 0; sampwidth := 0; framerate := 0; frames := [] |}.

Definition setnchannels (n : Z) (w : Wave_write) : Wave_write :=
  {| nchannels := n; sampwidth := sampwidth w;
     framerate := framerate w; frames := frames w |}.

Definition setsampwidth (n : Z) (w : Wave_write) : Wave_write :=
  {| nchannels := nchannels w; sampwidth := n;
     framerate := framerate w; frames := frames w |}.

Definition setframerate (n : Z) (w : Wave_write) : Wave_write :=
  {| nchannels := nchannels w; sampwidth := sampwidth w;
     framerate := n; frames := frames w |}.

Definition writeframes (data : list byte) (w : Wave_write) : Wave_write :=
  {| nchannels := nchannels w; sampwidth := sampwidth w;
     framerate := framerate w; frames := frames w ++ data |}.

Definition close_as (filename : string) (w : Wave_write) (e : Env) : Env :=
  {| notifying := notifying e;
     gatt_log := gatt_log e;
     callback_log := callback_log e;
     files := (filename, w) :: files e |}.

(** [save_recording(filename, recording)]. The [with] block closes the
    writer, and so writes the file, also when [struct.pack] raises. The
    file system is taken to accept every name and every write. *)
Definition save_recording (filename : string) (rec : list Z) : M Env unit :=
  let w := setframerate SAMPLE_RATE (setsampwidth 2 (setnchannels 1 wave_open)) in
  match pack_h rec with
  | Ok data => modify (close_as filename (writeframes data w))
  | Raise e => modify (close_as filename w) ;;; raise e
  end.

(** The file a name denotes after the writes so far. *)
Fixpoint lookup_file (filename : string) (fs : list (string * Wave_write))
  : option Wave_write :=
  match fs with
  | [] => None
  | (n, w) :: rest =>
      if String.eqb filename n then Some w else lookup_file filename rest
  end.

(** ** Command dispatcher *)

Inductive Flow : Type := Continue | Break.

Definition when (b : bool) (m : M World unit) : M World unit :=
  if b then m else ret tt.

(** The body of the [while] loop of [main] after the command is read. *)
Definition dispatch (a : Answers) (command : string) : M World Flow :=
  s <- on_state get ;;
  when ((command =? "start_stream")%string && negb (is_streaming s))
    (b <- start_stream a ;; on_state (modify (set_is_streaming b))) ;;;
  s <- on_state get ;;
  (if (command =? "stop_stream")%string && is_streaming s then
     b <- stop_stream a (is_streaming s) (start_time s) ;;
     on_state (modify (set_is_streaming b))
   else if (command =? "stop_record")%string && is_recording s then
     b <- on_state (stop_recording (recording s)) ;;
     on_state (modify (set_is_recording b))
   else ret tt) ;;;
  s <- on_state get ;;
  when ((command =? "start_record")%string && negb (is_recording s))
    (b <- on_state start_recording ;; on_state (modify (set_is_recording b))) ;;;
  when (command =? "save_record")%string
    (s <- on_state get ;;
     on_env (save_recording (typed_filename a) (recording s))) ;;;
  if (command =? "exit")%string then
    s <- on_state get ;;
    b <- stop_stream a (is_streaming s) (start_time s) ;;
    on_state (modify (set_is_streaming b)) ;;;
    ret Break
  else ret Continue.

Inductive LoopEnd : Type :=
| Exited           (* the loop reached [break] *)
| WaitingForInput. (* no command left: [input] blocks *)

(** The [while] loop, run on the commands typed so far. *)
Fixpoint command_loop (turns : list (Answers * string)) : M World LoopEnd :=
  match turns with
  | [] => ret WaitingForInput
  | (a, command) :: rest =>
      suspend (idle a) ;;;
      flow <- dispatch a command ;;
      match flow with
      | Break => ret Exited
      | Continue => command_loop rest
      end
  end.

(** ** Device locator *)

Module Locator.

Record BLEDevice : Type := mkDevice {
  name : option string;
  address : string
}.

Definition DEVICES : list string :=
  ["D5:91:CC:7A:AC:E4"; "E4:02:D2:DA:A5:29"]%string.

(** [needle in hay] on strings. *)
Fixpoint contains (needle hay : string) : bool :=
  if prefix needle hay then true
  else
    match hay with
    | EmptyString => false
    | String _ rest => contains needle rest
    end.

(** [d is not None and d.name and "Amua" in d.name and
    d.address in DEVICES] *)
Definition accepts (d : option BLEDevice) : bool :=
  match d with
  | None => false
  | Some d =>
      match name d with
      | None => false
      | Some EmptyString => false
      | Some n =>
          contains "Amua" n && existsb (String.eqb (address d)) DEVICES
      end
  end.

(** The variables shared by [main] and the callback. *)
Record Scan : Type := mkScan {
  device : option BLEDevice;
  found_event : bool
}.

Definition scan_start : Scan := {| device := None; found_event := false |}.

Definition detection_callback (d : option BLEDevice) (l : Scan) : Scan :=
  if accepts d then {| device := d; found_event := true |} else l.

(** An advertisement and when it is seen, in microseconds after
    [scanner.start()]. *)
Definition Sighting : Type := (Z * option BLEDevice)%type.

Definition SCAN_TIMEOUT_US : Z := 10000000.

Fixpoint first_accepted (air : list Sighting) : option Sighting :=
  match air with
  | [] => None
  | x :: rest => if accepts (snd x) then Some x else first_accepted rest
  end.

(** [asyncio.wait_for(found_event.wait(), timeout=10.0)]: the time
    at which [main] is woken, and whether by the timeout. *)
Definition wait_for_found (air : list Sighting) : Z * bool :=
  match first_accepted air with
  | Some (t, _) =>
      if t <? SCAN_TIMEOUT_US then (t, false) else (SCAN_TIMEOUT_US, true)
  | None => (SCAN_TIMEOUT_US, true)
  end.

(** The callback keeps running until [scanner.stop()] has completed,
    [lag] microseconds after [main] is woken. *)
Definition delivered (lag : Z) (air : list Sighting) : list Sighting :=
  filter (fun x => fst x <=? fst (wait_for_found air) + lag) air.

Definition run_callbacks (xs : list Sighting) (l : Scan) : Scan :=
  fold_left (fun l x => detection_callback (snd x) l) xs l.

(** The value of [device] when [main] tests it. *)
Definition locate (lag : Z) (air : list Sighting) : option BLEDevice :=
  device (run_callbacks (delivered lag air) scan_start).

(** [main] after the scan: the address it connects to, if any. *)
Definition connect_to (lag : Z) (air : list Sighting) : option string :=
  match locate lag air with
  | None => None
  | Some d => Some (address d)
  end.

(** The accepted devices among some sightings, in arrival order. *)
Definition matching (xs : list Sighting) : list (option BLEDevice) :=
  map snd (filter (fun x => accepts (snd x)) xs).

(** The first and the last accepted device seen before the scanner
    has stopped. *)
Definition first_match (lag : Z) (air : list Sighting) : option BLEDevice :=
  hd None (matching (delivered lag air)).

Definition last_match (lag : Z) (air : list Sighting) : option BLEDevice :=
  last (matching (delivered lag air)) None.

End Locator.

(** A streaming session has a start time: [start_stream] assigns it
    before it reports success, and nothing clears it. *)
Definition started_if_streaming (w : World) : Prop :=
  is_streaming (fst w) = true -> start_time (fst w) <> None.

Definition preserves {A} (m : M World A) : Prop :=
  forall w, started_if_streaming w -> started_if_streaming (snd (m w)).

(** ** The end of [main] *)

Inductive SessionEnd : Type :=
| Blocked            (* the loop still waits for a command *)
| NothingCaptured    (* the capture buffer is empty: nothing is exported *)
| Exported.          (* the capture buffer was written out *)

(** After the loop: an empty capture buffer ends [main]; otherwise it
    is saved as [recorded_audio.wav] (and handed to the analysis). *)
Definition export_capture : M World SessionEnd :=
  s <- on_state get ;;
  if Nat.eqb (List.length (audio_samples s)) 0 then ret NothingCaptured
  else
    on_env (save_recording "recorded_audio.wav" (audio_samples s)) ;;;
    ret Exported.

(** [main] from the connection on: the command loop, then the export.
    An exception in the loop ends [main] before the export. This is
    the run in which nothing arrives while the connection is closed and
    the file system opens the file; [main_end] below takes both
    answers. *)
Definition session (turns : list (Answers * string)) : M World SessionEnd :=
  r <- command_loop turns ;;
  match r with
  | WaitingForInput => ret Blocked
  | Exited => export_capture
  end.

(** ** The file system and the disconnect *)

(** [save_recording(filename, recording)] with the answer of the file
    system: when it refuses the name (an empty name, a missing
    directory), [wave.open] raises before a writer exists and nothing
    is written. *)
Definition save_recording_fs (opens : bool) (filename : string)
           (rec : list Z) : M Env unit :=
  if opens then save_recording filename rec else raise OSError.

(** The body of the [while] loop with the answer of the file system
    to the [wave.open] of this turn. *)
Definition dispatch_fs (opens : bool) (a : Answers) (command : string)
  : M World Flow :=
  s <- on_state get ;;
  when ((command =? "start_stream")%string && negb (is_streaming s))
    (b <- start_stream a ;; on_state (modify (set_is_streaming b))) ;;;
  s <- on_state get ;;
  (if (command =? "stop_stream")%string && is_streaming s then
     b <- stop_stream a (is_streaming s) (start_time s) ;;
     on_state (modify (set_is_streaming b))
   else if (command =? "stop_record")%string && is_recording s then
     b <- on_state (stop_recording (recording s)) ;;
     on_state (modify (set_is_recording b))
   else ret tt) ;;;
  s <- on_state get ;;
  when ((command =? "start_record")%string && negb (is_recording s))
    (b <- on_state start_recording ;; on_state (modify (set_is_recording b))) ;;;
  when (command =? "save_record")%string
    (s <- on_state get ;;
     on_env (save_recording_fs opens (typed_filename a) (recording s))) ;;;
  if (command =? "exit")%string then
    s <- on_state get ;;
    b <- stop_stream a (is_streaming s) (start_time s) ;;
    on_state (modify (set_is_streaming b)) ;;;
    ret Break
  else ret Continue.

(** Leaving the [async with BleakClient] block after the loop: the
    disconnect is awaited, so the handler still runs on what arrives
    meanwhile, and the disconnect may raise. *)
Definition leave_connection (closing : list Notification) (fails : bool)
  : M World unit :=
  suspend closing ;;;
  if fails then raise BleakError else ret tt.

(** The empty-capture test and the export, with the answer of the file
    system for [recorded_audio.wav]. *)
Definition export_capture_fs (opens : bool) : M World SessionEnd :=
  s <- on_state get ;;
  if Nat.eqb (List.length (audio_samples s)) 0 then ret NothingCaptured
  else
    on_env (save_recording_fs opens "recorded_audio.wav" (audio_samples s)) ;;;
    ret Exported.

(** [main] from the [break] of the loop to the export. *)
Definition main_end (closing : list Notification) (disconnect_fails : bool)
           (opens : bool) : M World SessionEnd :=
  leave_connection closing disconnect_fails ;;;
  export_capture_fs opens.

(** ** The hex dump of a packet *)

Module Hexdump.

Definition hex_digit (n : nat) : ascii :=
  nth n ["0"; "1"; "2"; "3"; "4"; "5"; "6"; "7";
         "8"; "9"; "a"; "b"; "c"; "d"; "e"; "f"]%char "0"%char.

(** [f"{b:02x}"] *)
Definition hex2 (b : byte) : string :=
  let n := N.to_nat (Byte.to_N b) in
  String (hex_digit (n / 16)) (String (hex_digit (n mod 16)) EmptyString).

Fixpoint spaces (n : nat) : string :=
  match n with
  | O => EmptyString
  | S n' => String " " (spaces n')
  end.

(** [f"{s:<width}"]: pad with spaces on the right, never truncate. *)
Definition ljust (width : nat) (s : string) : string :=
  (s ++ spaces (width - String.length s))%string.

Definition line_width : nat := 16.

Definition indent : string := spaces 40.

(** One line of the dump, for one chunk of at most 16 bytes. *)
Definition dump_line (chunk : list byte) : string :=
  let left_half := firstn 8 chunk in
  let right_half := skipn 8 chunk in
  let hex_left := String.concat " " (map hex2 left_half) in
  let hex_right := String.concat " " (map hex2 right_half) in
  let hex_str :=
    if (List.length chunk <=? 8)%nat then (ljust 23 hex_left ++ " ")%string
    else (hex_left ++ "  " ++ hex_right)%string in
  (indent ++ ljust 49 hex_str ++ " |")%string.

(** [range(0, n, line_width)] *)
Definition offsets (n : nat) : list nat :=
  map (fun k => (line_width * k)%nat) (seq 0 ((n + 15) / 16)).

Definition chunks (data : list byte) : list (list byte) :=
  map (fun i => Struct.slice i (i + line_width) data)
      (offsets (List.length data)).

Definition dump_lines (label : string) (data : list byte) : list string :=
  (label ++ ": ")%string :: map dump_line (chunks data).

Definition newline : string := String "010"%char EmptyString.

(** The message [log_hexdump_inf(data, logger, label)] hands to
    [logger.info]. *)
Definition log_hexdump_inf (label : string) (data : list byte) : string :=
  String.concat newline (dump_lines label data).

(** The hexadecimal digits of a string, in order. *)
Definition is_hex (c : ascii) : bool :=
  existsb (Ascii.eqb c)
    ["0"; "1"; "2"; "3"; "4"; "5"; "6"; "7";
     "8"; "9"; "a"; "b"; "c"; "d"; "e"; "f"]%char.

Definition hex_chars (s : string) : list ascii :=
  filter is_hex (list_ascii_of_string s).

Definition digits (data : list byte) : list ascii :=
  flat_map (fun b => list_ascii_of_string (hex2 b)) data.

(** The value of a hexadecimal digit. *)
Fixpoint index_of (c : ascii) (l : list ascii) : nat :=
  match l with
  | [] => O
  | x :: rest => if Ascii.eqb c x then O else S (index_of c rest)
  end.

Definition hex_val (c : ascii) : nat :=
  index_of c ["0"; "1"; "2"; "3"; "4"; "5"; "6"; "7";
              "8"; "9"; "a"; "b"; "c"; "d"; "e"; "f"]%char.

(** What follows the label line in the message. *)
Definition after_label (data : list byte) : string :=
  String.concat "" (map (fun l => (newline ++ l)%string)
                        (map dump_line (chunks data))).

End Hexdump.

(** ** Invariants of a session *)

(** Both buffers hold whole packets of 121 samples. *)
Definition whole_packets (s : State) : Prop :=
  (List.length (audio_samples s) mod 121 = 0)%nat /\
  (List.length (recording s) mod 121 = 0)%nat.

(** The recording buffer is a window on the capture buffer, and its
    end while recording is on. *)
Definition window (s : State) : Prop :=
  exists pre post,
    audio_samples s = pre ++ recording s ++ post /\
    (is_recording s = true -> post = []).

Definition buffers_ok (s : State) : Prop :=
  buffers_int16 s /\ whole_packets s /\ window s.

Definition session_ok (w : World) : Prop :=
  buffers_ok (fst w) /\
  (is_streaming (fst w) = true -> notifying (snd w) = true).

Definition keeps {A} (I : World -> Prop) (m : M World A) : Prop :=
  forall w, I w -> I (snd (m w)).

(** What deliveries may do to a state: append a batch of whole
    packets of 16-bit samples to the capture buffer, and the same batch
    to the recording buffer when recording is on. *)
Definition grows (s s' : State) : Prop :=
  exists more,
    audio_samples s' = audio_samples s ++ more /\
    recording s' = recording s ++ (if is_recording s then more else []) /\
    Forall (fun v => int16 v = true) more /\
    (List.length more mod 121 = 0)%nat /\
    is_recording s' = is_recording s.

(** What the command loop relies on without checking it: a streaming
    session has a start time and a subscribed handler, and the buffers
    hold 16-bit samples. *)
Definition healthy (w : World) : Prop :=
  started_if_streaming w /\
  (is_streaming (fst w) = true -> notifying (snd w) = true) /\
  buffers_int16 (fst w).

(** [m], run in [w], keeps the world healthy and can only raise a
    transport error. *)
Definition sound {A} (m : M World A) (w : World) : Prop :=
  healthy (snd (m w)) /\
  forall ex, fst (m w) = Raise ex -> ex = BleakError.

(** The bytes of the accepted packets that hold their samples, for a
    stream started at [t0]. *)
Fixpoint payload_after (t0 : Z) (ns : list Notification) : list byte :=
  match ns with
  | [] => []
  | n :: rest =>
      (if settled t0 n && (243 <=? List.length (snd n))%nat
       then slice 1 243 (snd n) else [])
      ++ payload_after t0 rest
  end.

(** ** Concrete inputs *)

(** A packet of 243 bytes, the bytes 0, 1, ..., 242. *)
Definition sample_packet : list byte :=
  map (fun n => byte_of_Z (Z.of_nat n)) (seq 0 243).

Definition short_packet : list byte := firstn 100 sample_packet.

(** A session that has been streaming since time 0. *)
Definition streaming_state : State :=
  {| audio_samples := [];
     recording := [];
     is_recording := false;
     is_streaming := true;
     start_time := Some 0 |}.

Definition subscribed_env : Env :=
  {| notifying := true;
     gatt_log := [(StartNotify, true); (WriteGattChar [x01], true)];
     callback_log := [];
     files := [] |}.

(** A quiet transport on which every call succeeds. *)
Definition quiet : Answers :=
  {| fails := fun _ => false;
     inflight := fun _ => [];
     idle := [];
     clock := 5000000;
     typed_filename := "take1.wav" |}.

(** A transport on which every characteristic write fails. *)
Definition write_fails : Answers :=
  {| fails := fun op =>
       match op with WriteGattChar _ => true | _ => false end;
     inflight := fun _ => [];
     idle := [];
     clock := 5000000;
     typed_filename := "take1.wav" |}.

(** A transport that delivers one packet while the START write is
    awaited. *)
Definition eager : Answers :=
  {| fails := fun _ => false;
     inflight := fun op =>
       match op with
       | WriteGattChar _ => [(4000000, sample_packet)]
       | _ => []
       end;
     idle := [];
     clock := 5000000;
     typed_filename := "take1.wav" |}.

Definition amua_a : Locator.BLEDevice :=
  {| Locator.name := Some "Amua-X"%string;
     Locator.address := "D5:91:CC:7A:AC:E4"%string |}.

Definition amua_b : Locator.BLEDevice :=
  {| Locator.name := Some "Amua-Y"%string;
     Locator.address := "E4:02:D2:DA:A5:29"%string |}.

(** Both allowed devices advertise, half a millisecond apart. *)
Definition two_amuas : list Locator.Sighting :=
  [(1000000, Some amua_a); (1000500, Some amua_b)].

(** The only advertisement comes 0.3 ms after the timeout. *)
Definition late_amua : list Locator.Sighting :=
  [(10000300, Some amua_a)].

(** A quiet transport that delivers the given notifications while the
    loop waits for the next command. *)
Definition hears (ns : list Notification) : Answers :=
  {| fails := fun _ => false;
     inflight := fun _ => [];
     idle := ns;
     clock := 0;
     typed_filename := "take1.wav" |}.

(** * Properties *)

(** ** Bytes and the [struct] formats *)

Section StructFacts.

Lemma byte_val_range (b : byte) : 0 <= byte_val b < 256.
Proof.
  unfold byte_val. pose proof (Byte.to_N_bounded b). lia.
Qed.

Lemma u16le_range (lo hi : byte) : 0 <= u16le lo hi < 65536.
Proof.
  unfold u16le.
  pose proof (byte_val_range lo). pose proof (byte_val_range hi). lia.
Qed.

Lemma s16le_int16 (lo hi : byte) : int16 (s16le lo hi) = true.
Proof.
  unfold int16, s16le. pose proof (u16le_range lo hi).
  destruct (Z.ltb_spec (u16le lo hi) 32768);
    apply andb_true_iff; split; apply Z.leb_le; lia.
Qed.

Lemma length_slice {A} (a b : nat) (l : list A) :
  List.length (slice a b l) = Nat.min (b - a) (List.length l - a).
Proof.
  unfold slice. now rewrite length_firstn, length_skipn.
Qed.


Lemma length_decode_h (bs : list byte) :
  List.length (decode_h bs) = Nat.div2 (List.length bs).
Proof.
  induction bs as [bs IH] using (well_founded_induction
    (Wf_nat.well_founded_ltof _ (@List.length byte))).
  destruct bs as [|lo [|hi rest]]; try reflexivity.
  cbn [decode_h List.length Nat.div2]. f_equal.
  apply IH. unfold Wf_nat.ltof. cbn. lia.
Qed.

Lemma nth_decode_h (i : nat) : forall bs : list byte,
  (2 * i + 1 < List.length bs)%nat ->
  nth i (decode_h bs) 0 = s16le (nth (2 * i) bs x00) (nth (2 * i + 1) bs x00).
Proof.
  induction i as [|i IH]; intros bs Hlen.
  - destruct bs as [|lo [|hi rest]]; cbn in Hlen; try lia. reflexivity.
  - destruct bs as [|lo [|hi rest]]; cbn [List.length] in Hlen; try lia.
    cbn [decode_h nth]. rewrite IH by lia.
    replace (2 * S i)%nat with (S (S (2 * i))) by lia.
    replace (S (S (2 * i)) + 1)%nat with (S (S (2 * i + 1))) by lia.
    reflexivity.
Qed.

Lemma decode_h_int16 (bs : list byte) : Forall (fun v => int16 v = true) (decode_h bs).
Proof.
  induction bs as [bs IH] using (well_founded_induction
    (Wf_nat.well_founded_ltof _ (@List.length byte))).
  destruct bs as [|lo [|hi rest]]; try constructor.
  - apply s16le_int16.
  - apply IH. unfold Wf_nat.ltof. cbn. lia.
Qed.

Lemma byte_val_of_Z (z : Z) : byte_val (byte_of_Z z) = z mod 256.
Proof.
  unfold byte_val, byte_of_Z.
  pose proof (Z.mod_pos_bound z 256 ltac:(lia)) as Hm.
  destruct (Byte.of_N (Z.to_N (z mod 256))) as [b|] eqn:E.
  - apply Byte.to_of_N in E. rewrite E. lia.
  - apply Byte.of_N_None_iff in E. lia.
Qed.

(** Packing a sample and reading it back gives the sample. *)
Lemma s16le_encode_h (v : Z) :
  int16 v = true -> s16le (byte_of_Z v) (byte_of_Z (v / 256)) = v.
Proof.
  unfold int16. intros H. apply andb_true_iff in H as [Hlo Hhi].
  apply Z.leb_le in Hlo, Hhi.
  unfold s16le, u16le. cbv zeta. rewrite !byte_val_of_Z.
  pose proof (Z.div_mod v 256 ltac:(lia)) as Hdm.
  pose proof (Z.mod_pos_bound v 256 ltac:(lia)) as Hm.
  assert (Hq : -128 <= v / 256 <= 127) by lia.
  destruct (Z_lt_le_dec v 0) as [Hneg|Hpos].
  - replace ((v / 256) mod 256) with (v / 256 + 256)
      by (apply Z.mod_unique with (q := -1); lia).
    destruct (Z.ltb_spec (v mod 256 + 256 * (v / 256 + 256)) 32768); lia.
  - assert (0 <= v / 256) by (apply Z.div_pos; lia).
    rewrite (Z.mod_small (v / 256)) by lia.
    destruct (Z.ltb_spec (v mod 256 + 256 * (v / 256)) 32768); lia.
Qed.

Lemma decode_h_encode (vs : list Z) :
  forallb int16 vs = true -> decode_h (flat_map encode_h vs) = vs.
Proof.
  induction vs as [|v vs IH]; intros H; [reflexivity|].
  cbn in H. apply andb_true_iff in H as [Hv Hvs].
  cbn [flat_map encode_h app decode_h].
  now rewrite s16le_encode_h, IH.
Qed.

Lemma length_encode (vs : list Z) :
  List.length (flat_map encode_h vs) = (2 * List.length vs)%nat.
Proof.
  induction vs as [|v vs IH]; [reflexivity|].
  cbn [flat_map encode_h app List.length]. rewrite IH. lia.
Qed.

End StructFacts.

(** ** Packet decoder *)

Section Decoder.

Lemma slice_head2 (data : list byte) :
  (2 <= List.length data)%nat ->
  slice 0 2 data = [nth 0 data x00; nth 1 data x00].
Proof.
  destruct data as [|a [|b rest]]; cbn; try lia. reflexivity.
Qed.

Lemma decode_packet_ok (data : list byte) :
  (243 <= List.length data)%nat ->
  decode_packet data =
    Ok (u16le (nth 0 data x00) (nth 1 data x00),
        decode_h (slice 1 243 data)).
Proof.
  intros Hlen. unfold decode_packet.
  rewrite slice_head2 by lia. cbn [unpack_H].
  unfold unpack_h.
  replace (List.length (slice 1 243 data)) with 242%nat
    by (rewrite length_slice; lia).
  reflexivity.
Qed.

Lemma decode_packet_short (data : list byte) :
  (List.length data < 243)%nat -> decode_packet data = Raise struct_error.
Proof.
  intros Hlen. unfold decode_packet.
  destruct (unpack_H (slice 0 2 data)) as [seq_num|e] eqn:E.
  - unfold unpack_h.
    destruct (Nat.eqb_spec (List.length (slice 1 243 data)) (2 * 121))
      as [Heq|Hne]; [|reflexivity].
    rewrite length_slice in Heq. lia.
  - unfold unpack_H in E.
    destruct (slice 0 2 data) as [|a [|b [|c r]]]; congruence.
Qed.

Lemma decode_packet_raises (data : list byte) (e : exn) :
  decode_packet data = Raise e -> e = struct_error.
Proof.
  unfold decode_packet, unpack_H, unpack_h.
  destruct (slice 0 2 data) as [|a [|b [|c r]]]; try congruence.
  destruct (Nat.eqb _ _); congruence.
Qed.

Lemma samples_in_spec (data : list byte) :
  samples_in data = if (243 <=? List.length data)%nat then 121%nat else 0%nat.
Proof.
  unfold samples_in.
  destruct (Nat.leb_spec 243 (List.length data)) as [H|H].
  - rewrite decode_packet_ok by exact H.
    rewrite length_decode_h, length_slice.
    replace (Nat.min (243 - 1) (List.length data - 1)) with 242%nat by lia.
    reflexivity.
  - now rewrite decode_packet_short.
Qed.

End Decoder.

(** ** Notification handler *)

Section Handler.

Lemma handler_unset (now : Z) (data : list byte) (s : State) :
  start_time s = None ->
  notification_handler now data s = (Raise TypeError, s).
Proof.
  intros H. unfold notification_handler, bind, get, lift. cbn.
  now rewrite H.
Qed.

Lemma handler_early (now t0 : Z) (data : list byte) (s : State) :
  start_time s = Some t0 -> now - t0 < SETTLE_US ->
  notification_handler now data s = (Ok tt, s).
Proof.
  intros H Hlt. unfold notification_handler, bind, get, lift. cbn.
  rewrite H. cbn. apply Z.ltb_lt in Hlt. now rewrite Hlt.
Qed.

Lemma handler_settled (now t0 : Z) (data : list byte) (s : State) :
  start_time s = Some t0 -> SETTLE_US <= now - t0 ->
  notification_handler now data s =
    match decode_packet data with
    | Ok (_, samples) => (Ok tt, appended samples s)
    | Raise e => (Raise e, s)
    end.
Proof.
  intros H Hge. unfold notification_handler, bind, get, lift. cbn.
  rewrite H. cbn. apply Z.ltb_ge in Hge. rewrite Hge.
  destruct (decode_packet data) as [[seq_num samples]|e]; [|reflexivity].
  unfold modify, ret, appended, extend_recording, extend_audio_samples.
  cbn. destruct (is_recording s); reflexivity.
Qed.

(** The three ways a call can go. *)
Lemma handler_cases (now : Z) (data : list byte) (s : State) :
  (exists r, notification_handler now data s = (r, s)) \/
  (exists seq_num samples,
      decode_packet data = Ok (seq_num, samples) /\
      notification_handler now data s = (Ok tt, appended samples s)).
Proof.
  destruct (start_time s) as [t0|] eqn:H.
  - destruct (Z_lt_le_dec (now - t0) SETTLE_US) as [Hlt|Hge].
    + left. eexists. now apply handler_early with (t0 := t0).
    + rewrite (handler_settled now t0 data s H Hge).
      destruct (decode_packet data) as [[seq_num samples]|e].
      * right. now exists seq_num, samples.
      * left. now eexists.
  - left. eexists. now apply handler_unset.
Qed.

(** No delivery touches the flags or the start time. *)
Lemma handler_flags (now : Z) (data : list byte) (s : State) :
  let s' := snd (notification_handler now data s) in
  is_recording s' = is_recording s /\
  is_streaming s' = is_streaming s /\
  start_time s' = start_time s.
Proof.
  destruct (handler_cases now data s) as [[r E]|(q & xs & _ & E)];
    rewrite E; cbn; auto.
Qed.

Lemma deliver_cons (n : Notification) (ns : list Notification) (s : State) :
  deliver (n :: ns) s =
    (fst (notification_handler (fst n) (snd n) s)
       :: fst (deliver ns (snd (notification_handler (fst n) (snd n) s))),
     snd (deliver ns (snd (notification_handler (fst n) (snd n) s)))).
Proof.
  destruct n as [now data]. cbn [deliver fst snd].
  destruct (notification_handler now data s) as [r s1].
  cbn [fst snd]. now destruct (deliver ns s1).
Qed.

Lemma deliver_flags (ns : list Notification) : forall s : State,
  let s' := snd (deliver ns s) in
  is_recording s' = is_recording s /\
  is_streaming s' = is_streaming s /\
  start_time s' = start_time s.
Proof.
  induction ns as [|n ns IH]; intros s; [cbn; auto|].
  rewrite deliver_cons. cbn [snd].
  destruct (IH (snd (notification_handler (fst n) (snd n) s))) as (A & B & C).
  destruct (handler_flags (fst n) (snd n) s) as (A' & B' & C').
  cbn zeta in *. repeat split; congruence.
Qed.

Lemma deliver_idle_recording (ns : list Notification) : forall s : State,
  is_recording s = false -> recording (snd (deliver ns s)) = recording s.
Proof.
  induction ns as [|n ns IH]; intros s Hrec; [reflexivity|].
  rewrite deliver_cons. cbn [snd].
  destruct (handler_flags (fst n) (snd n) s) as (A & _).
  cbn zeta in A. rewrite IH by congruence.
  destruct (handler_cases (fst n) (snd n) s) as [[r E]|(q & xs & _ & E)];
    rewrite E; cbn; [reflexivity|]. now rewrite Hrec.
Qed.

Lemma deliver_recording_length (t0 : Z) (ns : list Notification) :
  forall s : State,
    start_time s = Some t0 -> is_recording s = true ->
    List.length (recording (snd (deliver ns s))) =
      (List.length (recording s) + samples_after t0 ns)%nat.
Proof.
  induction ns as [|[now data] ns IH]; intros s Hstart Hrec.
  - cbn. lia.
  - rewrite deliver_cons. cbn [snd fst samples_after].
    destruct (handler_flags now data s) as (A & _ & C). cbn zeta in A, C.
    rewrite IH by congruence.
    unfold settled. cbn [fst].
    destruct (Z.ltb_spec (now - t0) SETTLE_US) as [Hlt|Hge]; cbn [negb].
    + rewrite (handler_early now t0 data s Hstart Hlt). cbn. lia.
    + rewrite (handler_settled now t0 data s Hstart Hge).
      unfold samples_in.
      destruct (decode_packet data) as [[seq_num samples]|e]; cbn.
      * rewrite Hrec, length_app. lia.
      * lia.
Qed.

Lemma decode_packet_int16 (data : list byte) (seq_num : Z) (samples : list Z) :
  decode_packet data = Ok (seq_num, samples) ->
  Forall (fun v => int16 v = true) samples.
Proof.
  unfold decode_packet, unpack_h.
  destruct (unpack_H _); [|discriminate].
  destruct (Nat.eqb _ _); [|discriminate].
  intros E. injection E as _ <-. apply decode_h_int16.
Qed.

Lemma handler_int16 (now : Z) (data : list byte) (s : State) :
  buffers_int16 s -> buffers_int16 (snd (notification_handler now data s)).
Proof.
  intros [Ha Hr].
  destruct (handler_cases now data s) as [[r E]|(q & xs & D & E)];
    rewrite E; cbn [snd]; [now split|].
  apply decode_packet_int16 in D.
  split; cbn; [now apply Forall_app|].
  destruct (is_recording s); [now apply Forall_app | exact Hr].
Qed.

Lemma deliver_int16 (ns : list Notification) : forall s : State,
  buffers_int16 s -> buffers_int16 (snd (deliver ns s)).
Proof.
  induction ns as [|n ns IH]; intros s H; [exact H|].
  rewrite deliver_cons. cbn [snd]. apply IH, handler_int16, H.
Qed.

End Handler.

(** ** Stream session and transport *)

Section Session.

Lemma suspend_eq (ns : list Notification) (s : State) (e : Env) :
  suspend ns (s, e) = (Ok tt, (heard ns e s, logged ns s e)).
Proof.
  unfold suspend, heard, logged.
  destruct (notifying e); [|reflexivity].
  now destruct (deliver ns s).
Qed.

Lemma heard_flags (ns : list Notification) (e : Env) (s : State) :
  is_recording (heard ns e s) = is_recording s /\
  is_streaming (heard ns e s) = is_streaming s /\
  start_time (heard ns e s) = start_time s.
Proof.
  unfold heard. destruct (notifying e); [apply deliver_flags | auto].
Qed.

Lemma logged_transport (ns : list Notification) (s : State) (e : Env) :
  notifying (logged ns s e) = notifying e /\
  gatt_log (logged ns s e) = gatt_log e /\
  files (logged ns s e) = files e.
Proof.
  unfold logged. destruct (notifying e) eqn:N; cbn; auto.
Qed.

Lemma gatt_eq (a : Answers) (op : GattOp) (s : State) (e : Env) :
  gatt a op (s, e) =
    (if fails a op then Raise BleakError else Ok tt,
     (heard (inflight a op) e s,
      after_op op (negb (fails a op)) (logged (inflight a op) s e))).
Proof.
  unfold gatt, bind. rewrite suspend_eq.
  destruct (fails a op); reflexivity.
Qed.

Lemma stop_stream_idle (a : Answers) (start : option Z) (w : World) :
  stop_stream a false start w = (Ok false, w).
Proof. reflexivity. Qed.

(** The state and the environment after the two calls of a stop. *)
Lemma stop_stream_eq (a : Answers) (start : option Z) (s : State) (e : Env) :
  let s1 := heard (inflight a (WriteGattChar [x00])) e s in
  let e1 := logged (inflight a (WriteGattChar [x00])) s e in
  let e2 := after_op (WriteGattChar [x00])
              (negb (fails a (WriteGattChar [x00]))) e1 in
  let s3 := heard (inflight a StopNotify) e2 s1 in
  let e3 := logged (inflight a StopNotify) s1 e2 in
  let e4 := after_op StopNotify (negb (fails a StopNotify)) e3 in
  stop_stream a true start (s, e) =
    if fails a (WriteGattChar [x00]) then (Raise BleakError, (s1, e2))
    else if fails a StopNotify then (Raise BleakError, (s3, e4))
    else match start with
         | Some _ => (Ok false, (s3, e4))
         | None => (Raise TypeError, (s3, e4))
         end.
Proof.
  cbv zeta. unfold stop_stream. cbn [negb]. unfold bind at 1.
  rewrite gatt_eq.
  destruct (fails a (WriteGattChar [x00])); [reflexivity|].
  unfold bind at 1. rewrite gatt_eq.
  destruct (fails a StopNotify); [reflexivity|].
  destruct start; reflexivity.
Qed.

Lemma start_stream_eq (a : Answers) (s : State) (e : Env) :
  let s1 := heard (inflight a StartNotify) e s in
  let e1 := logged (inflight a StartNotify) s e in
  let e2 := after_op StartNotify (negb (fails a StartNotify)) e1 in
  let s3 := heard (inflight a (WriteGattChar [x01])) e2 s1 in
  let e3 := logged (inflight a (WriteGattChar [x01])) s1 e2 in
  let e4 := after_op (WriteGattChar [x01])
              (negb (fails a (WriteGattChar [x01]))) e3 in
  start_stream a (s, e) =
    if fails a StartNotify then (Ok false, (s1, e2))
    else if fails a (WriteGattChar [x01]) then (Ok false, (s3, e4))
    else (Ok true, (set_start_time (clock a) s3, e4)).
Proof.
  cbv zeta. unfold start_stream, try_except. unfold bind at 1.
  rewrite gatt_eq.
  destruct (fails a StartNotify); [reflexivity|].
  unfold bind at 1. rewrite gatt_eq.
  destruct (fails a (WriteGattChar [x01])); reflexivity.
Qed.

Lemma dispatch_exit (a : Answers) (s : State) (e : Env) :
  dispatch a "exit" (s, e) =
    match stop_stream a (is_streaming s) (start_time s) (s, e) with
    | (Ok b, (s', e')) => (Ok Break, (set_is_streaming b s', e'))
    | (Raise ex, w') => (Raise ex, w')
    end.
Proof.
  unfold dispatch, when. cbn [String.eqb Ascii.eqb Bool.eqb andb].
  unfold bind, on_state, get, ret, modify. cbn [fst snd].
  destruct (stop_stream a (is_streaming s) (start_time s) (s, e))
    as [[b|ex] [s' e']]; reflexivity.
Qed.

Lemma command_loop_cons (a : Answers) (command : string)
      (rest : list (Answers * string)) (s : State) (e : Env) :
  command_loop ((a, command) :: rest) (s, e) =
    match dispatch a command (heard (idle a) e s, logged (idle a) s e) with
    | (Ok Break, w') => (Ok Exited, w')
    | (Ok Continue, w') => command_loop rest w'
    | (Raise ex, w') => (Raise ex, w')
    end.
Proof.
  cbn [command_loop]. unfold bind at 1. rewrite suspend_eq.
  unfold bind at 1.
  destruct (dispatch a command _) as [[[|]|ex] w']; reflexivity.
Qed.

(** *** A streaming session has a start time *)

Lemma preserves_bind {A B} (m : M World A) (k : A -> M World B) :
  preserves m -> (forall a, preserves (k a)) -> preserves (bind m k).
Proof.
  intros Hm Hk w Hw. unfold bind. specialize (Hm w Hw).
  destruct (m w) as [[a|ex] w']; cbn [snd] in *; [now apply Hk | exact Hm].
Qed.

Lemma preserves_ret {A} (a : A) : preserves (ret a).
Proof. intros w Hw. exact Hw. Qed.

Lemma preserves_get : preserves (on_state get).
Proof. intros [s e] Hw. exact Hw. Qed.

Lemma preserves_when (b : bool) (m : M World unit) :
  (b = true -> preserves m) -> preserves (when b m).
Proof.
  intros Hm. destruct b; [now apply Hm | apply preserves_ret].
Qed.

Lemma preserves_recording_flag (b : bool) :
  preserves (on_state (modify (set_is_recording b))).
Proof. intros [s e] Hw. exact Hw. Qed.

Lemma preserves_start_recording : preserves (on_state start_recording).
Proof. intros [s e] Hw. exact Hw. Qed.

Lemma preserves_stop_recording (rec : list Z) :
  preserves (on_state (stop_recording rec)).
Proof. intros [s e] Hw. exact Hw. Qed.

Lemma preserves_save (filename : string) (rec : list Z) :
  preserves (on_env (save_recording filename rec)).
Proof.
  intros [s e] Hw. unfold on_env. cbn [snd fst].
  now destruct (save_recording filename rec e).
Qed.

Lemma preserves_suspend (ns : list Notification) : preserves (suspend ns).
Proof.
  intros [s e] Hw. rewrite suspend_eq. unfold started_if_streaming in *.
  cbn [fst snd] in *. destruct (heard_flags ns e s) as (_ & -> & ->).
  exact Hw.
Qed.

Lemma preserves_start (a : Answers) :
  preserves (b <- start_stream a ;; on_state (modify (set_is_streaming b))).
Proof.
  intros [s e] Hw. unfold bind. rewrite start_stream_eq. cbv zeta.
  unfold started_if_streaming.
  destruct (fails a StartNotify);
    [|destruct (fails a (WriteGattChar [x01]))]; cbn; congruence.
Qed.

Lemma preserves_stop (a : Answers) (streaming : bool) (start : option Z) :
  preserves (b <- stop_stream a streaming start ;;
             on_state (modify (set_is_streaming b))).
Proof.
  intros [s e] Hw. unfold bind. destruct streaming.
  - rewrite stop_stream_eq. cbv zeta.
    unfold started_if_streaming in *. cbn [fst snd] in Hw.
    destruct (fails a (WriteGattChar [x00]));
      [|destruct (fails a StopNotify); [|destruct start]];
      cbn [fst snd on_state modify set_is_streaming is_streaming];
      try discriminate.
    all: repeat (match goal with
                 | |- context [is_streaming (heard ?ns ?e0 ?s0)] =>
                     let H := fresh in
                     destruct (heard_flags ns e0 s0) as (_ & H & _);
                     rewrite H; clear H
                 | |- context [start_time (heard ?ns ?e0 ?s0)] =>
                     let H := fresh in
                     destruct (heard_flags ns e0 s0) as (_ & _ & H);
                     rewrite H; clear H
                 end); exact Hw.
  - rewrite stop_stream_idle. cbn. unfold started_if_streaming. cbn.
    discriminate.
Qed.

Lemma bind_assoc {St A B C} (m : M St A) (f : A -> M St B) (g : B -> M St C)
      (w : St) :
  bind (bind m f) g w = bind m (fun a => bind (f a) g) w.
Proof.
  unfold bind. destruct (m w) as [[a|ex] w']; reflexivity.
Qed.

Lemma preserves_stop_then {B} (a : Answers) (streaming : bool)
      (start : option Z) (k : M World B) :
  preserves k ->
  preserves (b <- stop_stream a streaming start ;;
             on_state (modify (set_is_streaming b)) ;;; k).
Proof.
  intros Hk w Hw. rewrite <- bind_assoc.
  revert w Hw. apply preserves_bind; [apply preserves_stop | intros _; exact Hk].
Qed.

Lemma preserves_dispatch (a : Answers) (command : string) :
  preserves (dispatch a command).
Proof.
  unfold dispatch.
  repeat (first
    [ apply preserves_start
    | apply preserves_stop
    | apply preserves_stop_then
    | apply preserves_bind; [|intros ?]
    | apply preserves_get
    | apply preserves_when; intros _
    | apply preserves_ret
    | apply preserves_recording_flag
    | apply preserves_start_recording
    | apply preserves_stop_recording
    | apply preserves_save
    | match goal with |- preserves (if ?b then _ else _) => destruct b end ]).
Qed.

(** However the commands and the notifications interleave, a session
    that is streaming has its start time set. *)
Lemma command_loop_started (turns : list (Answers * string)) :
  preserves (command_loop turns).
Proof.
  induction turns as [|[a command] rest IH]; [apply preserves_ret|].
  cbn [command_loop].
  apply preserves_bind; [apply preserves_suspend | intros _].
  apply preserves_bind; [apply preserves_dispatch | intros [|]];
    [exact IH | apply preserves_ret].
Qed.

Lemma initial_world_started :
  started_if_streaming (initial_state, initial_env).
Proof. intros H. discriminate H. Qed.

End Session.

(** ** Device locator *)

Section LocatorFacts.
Import Locator.

Lemma prefix_spec (a : string) : forall b : string,
  prefix a b = true <-> exists post, b = (a ++ post)%string.
Proof.
  induction a as [|c a IH]; intros b.
  - destruct b; cbn; split; eauto.
  - destruct b as [|c' b]; cbn.
    + split; [discriminate | intros [post H]; discriminate].
    + destruct (ascii_dec c c') as [->|Hne].
      * rewrite IH. split; intros [post H]; exists post; congruence.
      * split; [discriminate | intros [post H]; congruence].
Qed.

Lemma contains_spec (needle : string) : forall hay : string,
  contains needle hay = true <->
  exists pre post, hay = (pre ++ needle ++ post)%string.
Proof.
  induction hay as [|c hay IH]; cbn [contains].
  - destruct (prefix needle "") eqn:P.
    + split; [intros _|reflexivity].
      apply prefix_spec in P as [post H]. now exists ""%string, post.
    + split; [discriminate|]. intros ([|c pre] & post & H); [|discriminate].
      assert (prefix needle "" = true) by (apply prefix_spec; eauto).
      congruence.
  - destruct (prefix needle (String c hay)) eqn:P.
    + split; [intros _|reflexivity].
      apply prefix_spec in P as [post H]. now exists ""%string, post.
    + rewrite IH. split.
      * intros (pre & post & ->). now exists (String c pre), post.
      * intros ([|c' pre] & post & H).
        -- assert (prefix needle (String c hay) = true)
             by (apply prefix_spec; eauto).
           congruence.
        -- cbn in H. injection H as _ ->. eauto.
Qed.

Lemma allowed_spec (addr : string) :
  existsb (String.eqb addr) DEVICES = true <-> In addr DEVICES.
Proof.
  rewrite existsb_exists. split.
  - intros (x & Hin & E). apply String.eqb_eq in E. now subst.
  - intros Hin. exists addr. split; [exact Hin | apply String.eqb_refl].
Qed.

Lemma accepts_spec (d : BLEDevice) :
  accepts (Some d) = true <->
  (exists n pre post, name d = Some n /\ n = (pre ++ "Amua" ++ post)%string)
  /\ In (address d) DEVICES.
Proof.
  unfold accepts. destruct (name d) as [[|c n]|].
  - split; [discriminate|].
    intros [(n & pre & post & E & H) _]. injection E as <-.
    destruct pre; discriminate.
  - rewrite andb_true_iff, contains_spec, allowed_spec.
    split; intros [H1 H2]; (split; [|exact H2]).
    + destruct H1 as (pre & post & H). now exists (String c n), pre, post.
    + destruct H1 as (n' & pre & post & E & H). injection E as <-. eauto.
  - split; [discriminate|].
    intros [(n & pre & post & E & H) _]. discriminate.
Qed.

Lemma last_cons_default {A} (l : list A) (a d d' : A) :
  last (a :: l) d = last (a :: l) d'.
Proof.
  revert a. induction l as [|b l IH]; intros a; [reflexivity|].
  change (last (b :: l) d = last (b :: l) d'). apply IH.
Qed.

Lemma run_callbacks_last (xs : list Sighting) : forall l : Scan,
  device (run_callbacks xs l) = last (matching xs) (device l).
Proof.
  unfold run_callbacks, matching.
  induction xs as [|x xs IH]; intros l; [reflexivity|].
  cbn [fold_left filter]. rewrite IH. unfold detection_callback.
  destruct (accepts (snd x)); [|reflexivity].
  cbn [map device].
  destruct (map snd (filter (fun x0 => accepts (snd x0)) xs)) eqn:E;
    [reflexivity|].
  rewrite (last_cons_default l0 o (snd x) (device l)).
  reflexivity.
Qed.

Lemma locate_last (lag : Z) (air : list Sighting) :
  locate lag air = last_match lag air.
Proof. unfold locate, last_match. now rewrite run_callbacks_last. Qed.

Lemma first_accepted_in (air : list Sighting) (x : Sighting) :
  first_accepted air = Some x -> In x air /\ accepts (snd x) = true.
Proof.
  induction air as [|y air IH]; cbn; [discriminate|].
  destruct (accepts (snd y)) eqn:A.
  - intros E. injection E as ->. auto.
  - intros E. destruct (IH E). auto.
Qed.

Lemma matching_nil (xs : list Sighting) :
  (forall x, In x xs -> accepts (snd x) = false) -> matching xs = [].
Proof.
  unfold matching. induction xs as [|x xs IH]; intros H; [reflexivity|].
  cbn [filter]. rewrite (H x (or_introl eq_refl)).
  apply IH. intros y Hy. apply H. now right.
Qed.

End LocatorFacts.

(** * Scenarios

    The model run on two sessions. *)

(** [start_stream], three packets after the settling time, then
    [stop_stream]: the capture buffer holds 363 samples and the
    recording buffer none. *)
Example capture_three_packets :
  let w := snd (command_loop
                  [(hears [], "start_stream"%string);
                   (hears [(2000000, sample_packet);
                           (2100000, sample_packet);
                           (2200000, sample_packet)], "stop_stream"%string)]
                  (initial_state, initial_env)) in
  List.length (audio_samples (fst w)) = 363%nat /\
  List.length (recording (fst w)) = 0%nat /\
  is_streaming (fst w) = false /\
  notifying (snd w) = false.
Proof. vm_compute. repeat split. Qed.

(** [start_record], [start_stream], one packet inside the settling
    time and two after it, [stop_record], [save_record]: the file holds
    the 242 samples of the two later packets. *)
Example record_two_packets :
  let w := snd (command_loop
                  [(hears [], "start_record"%string);
                   (hears [], "start_stream"%string);
                   (hears [(1000000, sample_packet);
                           (2000000, sample_packet);
                           (2100000, sample_packet)], "stop_record"%string);
                   (hears [], "save_record"%string)]
                  (initial_state, initial_env)) in
  option_map (fun f => List.length (frames f))
    (lookup_file "take1.wav" (files (snd w))) = Some 484%nat /\
  List.length (recording (fst w)) = 242%nat /\
  is_recording (fst w) = false.
Proof. vm_compute. repeat split. Qed.

(** * The claims *)

(** ** Packet decoder and handler *)



(** C2. For every packet shorter than 243 bytes decoding raises the
    decode error; the handler leaves the whole state as it was, so both
    buffers and the streaming flag are untouched, whatever the time of
    arrival; past the settling time its outcome is that error; and the
    notifications that follow are handled as if the short one had not
    come. *)
Theorem short_packet_is_dropped
        (data : list byte) (Hshort : (List.length data < 243)%nat) :
  decode_packet data = Raise struct_error /\
  (forall now s, exists r, notification_handler now data s = (r, s)) /\
  (forall now t0 s,
     start_time s = Some t0 -> SETTLE_US <= now - t0 ->
     notification_handler now data s = (Raise struct_error, s)) /\
  (forall now rest s,
     snd (deliver ((now, data) :: rest) s) = snd (deliver rest s)).
Proof.
  pose proof (decode_packet_short data Hshort) as Hdec.
  assert (Hsame : forall now s,
             exists r, notification_handler now data s = (r, s)).
  { intros now s.
    destruct (handler_cases now data s) as [H|(q & xs & D & _)];
      [exact H | congruence]. }
  repeat split; try assumption.
  - intros now t0 s Hstart Hge.
    rewrite (handler_settled now t0 data s Hstart Hge). now rewrite Hdec.
  - intros now rest s. rewrite deliver_cons. cbn [fst snd].
    destruct (Hsame now s) as [r E]. now rewrite E.
Qed.

Lemma short_packet_is_dropped_witness :
  notification_handler 5000000 short_packet streaming_state =
    (Raise struct_error, streaming_state).
Proof.
  assert (Hshort : (List.length short_packet < 243)%nat)
    by (vm_compute; lia).
  destruct (short_packet_is_dropped short_packet Hshort) as (_ & _ & H & _).
  apply (H 5000000 0 streaming_state eq_refl).
  vm_compute. discriminate.
Defined.

(** C4. With the stream started at [t0], a notification that arrives
    less than two seconds after [t0] is discarded: the handler returns
    and the state, hence both buffers, is unchanged. So while recording
    is on, the recording buffer grows by exactly the samples of the
    packets that arrive at least two seconds after [t0]; starting from
    an empty buffer its length is their total sample count. *)
Theorem early_notifications_suppressed
        (t0 : Z) (s : State) (Hstart : start_time s = Some t0) :
  (forall now data,
     now - t0 < SETTLE_US -> notification_handler now data s = (Ok tt, s)) /\
  (forall ns,
     is_recording s = true ->
     List.length (recording (snd (deliver ns s))) =
       (List.length (recording s) + samples_after t0 ns)%nat) /\
  (forall ns,
     is_recording s = true -> recording s = [] ->
     List.length (recording (snd (deliver ns s))) = samples_after t0 ns).
Proof.
  split; [|split].
  - intros now data Hlt. now apply handler_early with (t0 := t0).
  - intros ns Hrec. now apply deliver_recording_length.
  - intros ns Hrec Hnil.
    rewrite (deliver_recording_length t0 ns s Hstart Hrec), Hnil.
    reflexivity.
Qed.

Lemma early_notifications_suppressed_witness :
  List.length
    (recording
       (snd (deliver [(1000000, sample_packet); (2000000, sample_packet);
                      (2500000, sample_packet)]
               (set_is_recording true streaming_state)))) = 242%nat.
Proof.
  destruct (early_notifications_suppressed 0
              (set_is_recording true streaming_state) eq_refl)
    as (_ & _ & H).
  rewrite H by reflexivity. vm_compute. reflexivity.
Defined.

(** C5. While recording is off, no sequence of notifications changes
    the recording buffer: if it is empty, as at the start of the
    session, its length stays 0. *)
Theorem idle_recording_stays_empty
        (ns : list Notification) (s : State)
        (Hidle : is_recording s = false) (Hempty : recording s = []) :
  List.length (recording (snd (deliver ns s))) = 0%nat.
Proof.
  rewrite deliver_idle_recording by exact Hidle. now rewrite Hempty.
Qed.

Lemma idle_recording_stays_empty_witness :
  List.length
    (recording
       (snd (deliver [(2000000, sample_packet); (2500000, sample_packet)]
               streaming_state))) = 0%nat
  /\ List.length
       (audio_samples
          (snd (deliver [(2000000, sample_packet); (2500000, sample_packet)]
                  streaming_state))) = 242%nat.
Proof.
  split.
  - apply (idle_recording_stays_empty _ streaming_state); reflexivity.
  - vm_compute. reflexivity.
Defined.

(** C10. The handler needs [start_time] to be set. While it is unset
    every delivery raises when the elapsed time is computed, before any
    sample is appended or discarded, and the state is left as it was.
    The first [start_stream] opens that window: the subscription is
    installed before the START write is awaited and the start time is
    assigned only after it, so every notification dispatched during the
    write raises; and when the write fails, [start_stream] returns
    [False] with the subscription still active and the start time
    still unset. *)
Theorem handler_needs_start_time
        (s : State) (Hunset : start_time s = None) :
  (forall now data,
     notification_handler now data s = (Raise TypeError, s)) /\
  (forall ns, deliver ns s = (map (fun _ => Raise TypeError) ns, s)) /\
  (forall a e,
     notifying e = false -> fails a StartNotify = false ->
     exists e',
       start_stream a (s, e) =
         (Ok (negb (fails a (WriteGattChar [x01]))),
          (if fails a (WriteGattChar [x01]) then s
           else set_start_time (clock a) s, e')) /\
       notifying e' = true /\
       callback_log e' =
         callback_log e ++
         map (fun _ => Raise TypeError) (inflight a (WriteGattChar [x01]))).
Proof.
  assert (Hdel : forall ns,
             deliver ns s = (map (fun _ => Raise TypeError) ns, s)).
  { induction ns as [|[now data] ns IH]; [reflexivity|].
    cbn [deliver map]. rewrite (handler_unset now data s Hunset).
    now rewrite IH. }
  split; [|split].
  - intros now data. now apply handler_unset.
  - exact Hdel.
  - intros a e Hquiet Hsub.
    rewrite start_stream_eq. cbv zeta. rewrite Hsub.
    unfold heard, logged. rewrite Hquiet. cbn [negb after_op notifying].
    rewrite !Hdel. cbn [fst snd].
    destruct (fails a (WriteGattChar [x01])); eexists;
      (split; [reflexivity | split; reflexivity]).
Qed.

Lemma handler_needs_start_time_witness :
  notification_handler 4000000 sample_packet initial_state =
    (Raise TypeError, initial_state) /\
  callback_log (snd (snd (start_stream eager (initial_state, initial_env)))) =
    [Raise TypeError] /\
  (let w := snd (start_stream write_fails (initial_state, initial_env)) in
   notifying (snd w) = true /\ start_time (fst w) = None).
Proof.
  destruct (handler_needs_start_time initial_state eq_refl) as (H1 & _ & H3).
  split; [apply H1|]. split.
  - destruct (H3 eager initial_env eq_refl eq_refl) as (e' & E & _ & Hlog).
    rewrite E. exact Hlog.
  - destruct (H3 write_fails initial_env eq_refl eq_refl) as (e' & E & Hn & _).
    rewrite E. split; [exact Hn | reflexivity].
Defined.

(** ** Stream stop, recording and exit *)

(** Called while not streaming, [stop_stream] does nothing and returns
    [False]. *)
Lemma stop_stream_noop (a : Answers) (start : option Z) (w : World) :
  stop_stream a false start w = (Ok false, w).
Proof. apply stop_stream_idle. Qed.

(** Called while streaming on a transport that accepts both calls, it
    sends STOP, unsubscribes and returns [False]. *)
Lemma stop_stream_succeeds
      (a : Answers) (t0 : Z) (s : State) (e : Env) :
  fails a (WriteGattChar [x00]) = false -> fails a StopNotify = false ->
  exists s' e',
    stop_stream a true (Some t0) (s, e) = (Ok false, (s', e')) /\
    is_streaming s' = is_streaming s /\
    notifying e' = false /\
    gatt_log e' =
      gatt_log e ++ [(WriteGattChar [x00], true); (StopNotify, true)].
Proof.
  intros Hw Hs. do 2 eexists. rewrite stop_stream_eq. cbv zeta.
  rewrite Hw, Hs. split; [reflexivity|]. split; [|split].
  - etransitivity; [apply heard_flags|]. apply heard_flags.
  - reflexivity.
  - cbn [negb after_op gatt_log].
    destruct (logged_transport (inflight a StopNotify)
                (heard (inflight a (WriteGattChar [x00])) e s)
                (after_op (WriteGattChar [x00]) true
                   (logged (inflight a (WriteGattChar [x00])) s e)))
      as (_ & -> & _).
    cbn [after_op gatt_log].
    destruct (logged_transport (inflight a (WriteGattChar [x00])) s e)
      as (_ & -> & _).
    now rewrite <- app_assoc.
Qed.

(** C3, at a failing transport. The session is streaming and the STOP
    write fails: [stop_stream] raises instead of returning [False], the
    dispatcher never assigns the flag, so the loop ends by the exception
    with [is_streaming] still true and the handler still subscribed. The
    same happens for [exit]. *)
Theorem stop_stream_failure_keeps_streaming :
  stop_stream write_fails true (Some 0) (streaming_state, subscribed_env) =
    (Raise BleakError,
     (streaming_state, after_op (WriteGattChar [x00]) false subscribed_env)) /\
  dispatch write_fails "stop_stream" (streaming_state, subscribed_env) =
    (Raise BleakError,
     (streaming_state, after_op (WriteGattChar [x00]) false subscribed_env)) /\
  dispatch write_fails "exit" (streaming_state, subscribed_env) =
    (Raise BleakError,
     (streaming_state, after_op (WriteGattChar [x00]) false subscribed_env)) /\
  is_streaming streaming_state = true /\
  notifying (after_op (WriteGattChar [x00]) false subscribed_env) = true.
Proof.
  split; [reflexivity|]. split; [reflexivity|]. split; [reflexivity|].
  split; reflexivity.
Qed.

(** C6. [start_recording] always leaves the recording buffer empty and
    returns [True], whatever the state it is called in, recording on or
    off; nothing else in the state changes. *)
Theorem start_recording_resets (s : State) :
  exists s',
    start_recording s = (Ok true, s') /\
    recording s' = [] /\
    audio_samples s' = audio_samples s /\
    is_recording s' = is_recording s /\
    is_streaming s' = is_streaming s /\
    start_time s' = start_time s.
Proof.
  exists (set_recording [] s). repeat split; reflexivity.
Qed.

(** In the command loop [start_record] reaches [start_recording] only
    when recording is off: typed while recording is on, it leaves the
    world as it is. *)
Lemma start_record_guarded (a : Answers) (s : State) (e : Env) :
  is_recording s = true ->
  dispatch a "start_record" (s, e) = (Ok Continue, (s, e)).
Proof.
  intros Hrec. unfold dispatch, when.
  cbn [String.eqb Ascii.eqb Bool.eqb andb].
  unfold bind, on_state, get, ret. cbn [fst snd].
  rewrite Hrec. reflexivity.
Qed.

(** The exit path. When [exit] is the next command the loop ends there,
    whatever is typed after it, and whenever it exits the streaming flag
    is false. If the session is not streaming, the loop exits without any
    GATT call. If it is streaming, the STOP write is attempted before
    the loop ends, however it ends; and on a transport that accepts the
    write and the unsubscription the loop does exit, with the flag
    false, the handler unsubscribed and both calls logged (the start
    time of a streaming session is set in every world the loop reaches,
    see [command_loop_started]). *)
Theorem exit_forces_stop_stream (a : Answers) (s : State) (e : Env) :
  (forall rest s' e',
     command_loop ((a, "exit"%string) :: rest) (s, e) = (Ok Exited, (s', e')) ->
     is_streaming s' = false) /\
  (is_streaming s = false ->
   exists s' e',
     (forall rest,
        command_loop ((a, "exit"%string) :: rest) (s, e) =
          (Ok Exited, (s', e'))) /\
     is_streaming s' = false /\
     gatt_log e' = gatt_log e) /\
  (is_streaming s = true ->
   exists r s' e' ok more,
     (forall rest,
        command_loop ((a, "exit"%string) :: rest) (s, e) = (r, (s', e'))) /\
     (r = Ok Exited \/ exists ex, r = Raise ex) /\
     gatt_log e' = gatt_log e ++ (WriteGattChar [x00], ok) :: more) /\
  (is_streaming s = true -> started_if_streaming (s, e) ->
   fails a (WriteGattChar [x00]) = false -> fails a StopNotify = false ->
   exists s' e',
     (forall rest,
        command_loop ((a, "exit"%string) :: rest) (s, e) =
          (Ok Exited, (s', e'))) /\
     is_streaming s' = false /\
     notifying e' = false /\
     gatt_log e' =
       gatt_log e ++ [(WriteGattChar [x00], true); (StopNotify, true)]).
Proof.
  destruct (heard_flags (idle a) e s) as (_ & Hstr & Hst).
  destruct (logged_transport (idle a) s e) as (_ & Hlog & _).
  split; [|split; [|split]].
  - intros rest s' e'. rewrite command_loop_cons, dispatch_exit, Hstr.
    destruct (is_streaming s) eqn:Hon.
    + rewrite stop_stream_eq. cbv zeta.
      destruct (fails a (WriteGattChar [x00]));
        [|destruct (fails a StopNotify);
          [|destruct (start_time (heard (idle a) e s))]];
        try discriminate.
      intros E. injection E as <- _. reflexivity.
    + rewrite stop_stream_idle. intros E. injection E as <- _. reflexivity.
  - intros Hoff. do 2 eexists. split; [|split].
    + intros rest. rewrite command_loop_cons, dispatch_exit.
      rewrite Hstr, Hoff, stop_stream_idle. reflexivity.
    + reflexivity.
    + exact Hlog.
  - intros Hon.
    pose proof (stop_stream_eq a (start_time (heard (idle a) e s))
                  (heard (idle a) e s) (logged (idle a) s e)) as E.
    cbv zeta in E.
    destruct (fails a (WriteGattChar [x00])) eqn:Hw;
      [|destruct (fails a StopNotify) eqn:Hs;
        [|destruct (start_time (heard (idle a) e s)) eqn:Ht]].
    all: do 5 eexists.
    all: split;
      [intros rest; rewrite command_loop_cons, dispatch_exit, Hstr, Hon;
       try rewrite Ht; rewrite E; reflexivity|].
    all: split; [try (left; reflexivity); right; eexists; reflexivity|].
    all: cbn [negb after_op gatt_log].
    all: repeat (match goal with
                 | |- context [gatt_log (logged ?ns ?s0 ?e0)] =>
                     let H := fresh in
                     destruct (logged_transport ns s0 e0) as (_ & H & _);
                     rewrite H; clear H; cbn [after_op gatt_log]
                 end).
    all: rewrite <- ?app_assoc; reflexivity.
  - intros Hon Hinv Hw Hs.
    destruct (start_time s) as [t0|] eqn:Hstart;
      [|now destruct (Hinv Hon)].
    destruct (stop_stream_succeeds a t0 (heard (idle a) e s)
                (logged (idle a) s e) Hw Hs) as (s' & e' & E & _ & Hn & Hg).
    exists (set_is_streaming false s'), e'. split; [|split; [|split]].
    + intros rest. rewrite command_loop_cons, dispatch_exit.
      rewrite Hstr, Hon, Hst, E. reflexivity.
    + reflexivity.
    + exact Hn.
    + now rewrite Hg, Hlog.
Qed.

Lemma exit_forces_stop_stream_witness :
  command_loop [(quiet, "exit"%string); (quiet, "start_stream"%string)]
    (streaming_state, subscribed_env) =
    (Ok Exited,
     (set_is_streaming false streaming_state,
      after_op StopNotify true
        (after_op (WriteGattChar [x00]) true subscribed_env))).
Proof.
  destruct (exit_forces_stop_stream quiet streaming_state subscribed_env)
    as (_ & _ & _ & H).
  assert (Hinv : started_if_streaming (streaming_state, subscribed_env))
    by (intros _; discriminate).
  destruct (H eq_refl Hinv eq_refl eq_refl) as (s' & e' & E & _).
  rewrite E. symmetry. rewrite <- (E []). reflexivity.
Defined.

(** C9, at a failing transport. A session is started and [exit] is
    typed while the STOP write fails. The stop is attempted, as the
    claim says, but [stop_stream] raises, the flag is never assigned,
    and the loop ends by the exception with [is_streaming] still true
    and the handler still subscribed: the flag is not false when the
    loop ends. *)
Theorem exit_failure_leaves_streaming :
  command_loop [(quiet, "start_stream"%string); (write_fails, "exit"%string)]
    (initial_state, initial_env) =
    (Raise BleakError,
     (set_is_streaming true (set_start_time 5000000 initial_state),
      after_op (WriteGattChar [x00]) false
        (after_op (WriteGattChar [x01]) true
           (after_op StartNotify true initial_env)))) /\
  is_streaming (set_is_streaming true (set_start_time 5000000 initial_state))
    = true /\
  notifying
    (after_op (WriteGattChar [x00]) false
       (after_op (WriteGattChar [x01]) true
          (after_op StartNotify true initial_env))) = true.
Proof.
  split; [reflexivity|]. split; reflexivity.
Qed.

(** ** WAV encoder *)

(** C7. Saving a buffer of [K] signed 16-bit samples writes, under the
    given name, a file that declares one channel, a sample width of two
    bytes (16 bits) and a rate of 32000 Hz, and whose payload has
    exactly [2K] bytes: sample [i] of the buffer sits in bytes [2i] and
    [2i + 1], low byte first, in two's complement. *)
Theorem save_recording_wav
        (filename : string) (rec : list Z) (e : Env)
        (Hint : Forall (fun v => int16 v = true) rec) :
  exists w,
    save_recording filename rec e = (Ok tt, close_as filename w e) /\
    lookup_file filename (files (close_as filename w e)) = Some w /\
    nchannels w = 1 /\
    8 * sampwidth w = 16 /\
    framerate w = 32000 /\
    List.length (frames w) = (2 * List.length rec)%nat /\
    decode_h (frames w) = rec /\
    (forall i, (i < List.length rec)%nat ->
       s16le (nth (2 * i) (frames w) x00) (nth (2 * i + 1) (frames w) x00) =
         nth i rec 0).
Proof.
  assert (Hall : forallb int16 rec = true)
    by (apply forallb_forall; intros v Hv;
        exact (proj1 (Forall_forall _ rec) Hint v Hv)).
  exists (writeframes (flat_map encode_h rec)
            (setframerate SAMPLE_RATE
               (setsampwidth 2 (setnchannels 1 wave_open)))).
  split.
  { unfold save_recording, pack_h. rewrite Hall. reflexivity. }
  split.
  { cbn [close_as files lookup_file]. now rewrite String.eqb_refl. }
  cbn [writeframes setframerate setsampwidth setnchannels wave_open
         nchannels sampwidth framerate frames app].
  repeat split.
  - apply length_encode.
  - now apply decode_h_encode.
  - intros i Hi. rewrite <- nth_decode_h by (rewrite length_encode; lia).
    now rewrite decode_h_encode.
Qed.

Lemma save_recording_wav_witness :
  exists w,
    save_recording "take1.wav" [0; -1; 32767; -32768; 258] initial_env =
      (Ok tt, close_as "take1.wav" w initial_env) /\
    framerate w = 32000 /\
    frames w = [x00; x00; xff; xff; xff; x7f; x00; x80; x02; x01].
Proof.
  assert (Hint : Forall (fun v => int16 v = true) [0; -1; 32767; -32768; 258])
    by (repeat constructor).
  destruct (save_recording_wav "take1.wav" [0; -1; 32767; -32768; 258]
              initial_env Hint) as (w & E & _ & _ & _ & Hrate & _).
  exists w. split; [exact E|]. split; [exact Hrate|].
  vm_compute in E. injection E as E. now subst w.
Defined.

(** A value outside the signed 16-bit range makes [struct.pack] raise;
    the writer is closed by the [with] block and leaves an empty file. *)
Lemma save_recording_out_of_range (filename : string) (rec : list Z) (e : Env) :
  forallb int16 rec = false ->
  save_recording filename rec e =
    (Raise struct_error,
     close_as filename
       (setframerate SAMPLE_RATE (setsampwidth 2 (setnchannels 1 wave_open)))
       e).
Proof.
  intros H. unfold save_recording, pack_h. now rewrite H.
Qed.

(** ** Device locator *)

(** C8, as the claim states it, fails twice. With both allowed devices
    advertising half a millisecond apart and the scanner stopped one
    millisecond after the first match, [main] ends up with the second
    device, not the first. And with the only matching advertisement
    arriving just after the timeout, while the scanner is being stopped,
    the wait times out and yet a device is located and connected to. *)
Lemma locate_is_not_first_match :
  (Locator.locate 1000 two_amuas = Some amua_b /\
   Locator.first_match 1000 two_amuas = Some amua_a /\
   Locator.locate 1000 two_amuas <> Locator.first_match 1000 two_amuas) /\
  (Locator.wait_for_found late_amua = (Locator.SCAN_TIMEOUT_US, true) /\
   Locator.connect_to 1000 late_amua = Some "D5:91:CC:7A:AC:E4"%string).
Proof.
  split.
  - split; [reflexivity|]. split; [reflexivity|].
    vm_compute. discriminate.
  - split; reflexivity.
Qed.

(** C8, amended. A sighting is accepted exactly when it carries a
    device whose name contains "Amua" and whose address is in the
    allow-list. Every accepted sighting delivered before the scanner has
    stopped overwrites the located device, so the scan resolves with the
    last of them, which is an accepted device and is the first when at
    most one was delivered. When no accepted sighting arrives before the
    scanner has stopped after the 10-second timeout, the wait times out,
    no device is located and no connection is attempted. *)
Theorem locator_resolves_last_match :
  (forall d,
     Locator.accepts (Some d) = true <->
     (exists n pre post,
         Locator.name d = Some n /\ n = (pre ++ "Amua" ++ post)%string) /\
     In (Locator.address d) Locator.DEVICES) /\
  Locator.accepts None = false /\
  (forall lag air, Locator.locate lag air = Locator.last_match lag air) /\
  (forall lag air d,
     Locator.locate lag air = Some d ->
     Locator.accepts (Some d) = true /\
     Locator.connect_to lag air = Some (Locator.address d)) /\
  (forall lag air,
     (List.length (Locator.matching (Locator.delivered lag air)) <= 1)%nat ->
     Locator.locate lag air = Locator.first_match lag air) /\
  (forall lag air,
     0 <= lag ->
     (forall x, In x air -> Locator.accepts (snd x) = true ->
                Locator.SCAN_TIMEOUT_US + lag < fst x) ->
     Locator.wait_for_found air = (Locator.SCAN_TIMEOUT_US, true) /\
     Locator.locate lag air = None /\
     Locator.connect_to lag air = None).
Proof.
  split; [exact accepts_spec|]. split; [reflexivity|].
  split; [exact locate_last|]. split; [|split].
  - intros lag air d Hloc. split.
    + rewrite locate_last in Hloc. unfold Locator.last_match in Hloc.
      destruct (Locator.matching (Locator.delivered lag air))
        as [|m ms] eqn:E; [discriminate|].
      assert (Hin : In (Some d) (Locator.matching (Locator.delivered lag air))).
      { rewrite E, <- Hloc.
        destruct (exists_last (l := m :: ms) ltac:(discriminate))
          as (l' & z & ->).
        rewrite last_last. apply in_or_app. right. now left. }
      unfold Locator.matching in Hin. apply in_map_iff in Hin
        as (x & Hx & Hf). apply filter_In in Hf as [_ Hacc]. now rewrite <- Hx.
    + unfold Locator.connect_to. now rewrite Hloc.
  - intros lag air Hone. rewrite locate_last.
    unfold Locator.last_match, Locator.first_match.
    destruct (Locator.matching (Locator.delivered lag air))
      as [|m [|m' ms]]; cbn in *; try reflexivity; lia.
  - intros lag air Hlag Hlate.
    assert (Hwait : Locator.wait_for_found air = (Locator.SCAN_TIMEOUT_US, true)).
    { unfold Locator.wait_for_found.
      destruct (Locator.first_accepted air) as [[t d]|] eqn:F; [|reflexivity].
      apply first_accepted_in in F as [Hin Hacc].
      specialize (Hlate _ Hin Hacc). cbn [fst] in Hlate.
      destruct (Z.ltb_spec t Locator.SCAN_TIMEOUT_US); [lia | reflexivity]. }
    assert (Hnone : Locator.locate lag air = None).
    { rewrite locate_last. unfold Locator.last_match.
      rewrite matching_nil; [reflexivity|].
      intros x Hx. unfold Locator.delivered in Hx.
      apply filter_In in Hx as [Hin Ht]. rewrite Hwait in Ht. cbn [fst] in Ht.
      apply Z.leb_le in Ht.
      destruct (Locator.accepts (snd x)) eqn:A; [|reflexivity].
      specialize (Hlate _ Hin A). lia. }
    repeat split; [exact Hwait | exact Hnone |].
    unfold Locator.connect_to. now rewrite Hnone.
Qed.

Lemma locator_resolves_last_match_witness :
  Locator.accepts (Some amua_a) = true /\
  Locator.locate 0 two_amuas = Some amua_a /\
  Locator.connect_to 0 two_amuas = Some "D5:91:CC:7A:AC:E4"%string /\
  Locator.locate 250000 [(10300000, Some amua_a)] = None.
Proof.
  destruct locator_resolves_last_match as (Hacc & _ & _ & Hconn & Hone & Hnone).
  split; [|split; [|split]].
  - apply Hacc. split.
    + exists "Amua-X"%string, ""%string, "-X"%string. split; reflexivity.
    + left. reflexivity.
  - rewrite Hone by (vm_compute; lia). reflexivity.
  - apply (Hconn 0 two_amuas amua_a). reflexivity.
  - apply (Hnone 250000 [(10300000, Some amua_a)]); [lia|].
    intros x [<-|[]] _. vm_compute. reflexivity.
Defined.

(** * Further properties of the code *)

(** ** [struct] round trips and the decoder *)

Lemma byte_of_Z_val (z : Z) (b : byte) : z mod 256 = byte_val b -> byte_of_Z z = b.
Proof.
  intros H. unfold byte_of_Z. rewrite H. unfold byte_val.
  rewrite N2Z.id. now rewrite Byte.of_to_N.
Qed.

Lemma encode_h_s16le (lo hi : byte) : encode_h (s16le lo hi) = [lo; hi].
Proof.
  pose proof (byte_val_range lo) as Hlo.
  pose proof (byte_val_range hi) as Hhi.
  unfold encode_h, s16le, u16le. cbv zeta.
  destruct (Z.ltb_spec (byte_val lo + 256 * byte_val hi) 32768) as [H|H].
  - f_equal; [|f_equal]; apply byte_of_Z_val.
    + symmetry. apply Z.mod_unique with (q := byte_val hi); lia.
    + replace ((byte_val lo + 256 * byte_val hi) / 256) with (byte_val hi)
        by (apply Z.div_unique with (r := byte_val lo); lia).
      apply Z.mod_small. lia.
  - f_equal; [|f_equal]; apply byte_of_Z_val.
    + symmetry. apply Z.mod_unique with (q := byte_val hi - 256); lia.
    + replace ((byte_val lo + 256 * byte_val hi - 65536) / 256)
        with (byte_val hi - 256)
        by (apply Z.div_unique with (r := byte_val lo); lia).
      symmetry. apply Z.mod_unique with (q := -1); lia.
Qed.

Lemma encode_decode_h (n : nat) : forall bs : list byte,
  List.length bs = (2 * n)%nat -> flat_map encode_h (decode_h bs) = bs.
Proof.
  induction n as [|n IH]; intros bs Hlen.
  - destruct bs; [reflexivity | discriminate].
  - destruct bs as [|lo [|hi rest]]; cbn [List.length] in Hlen; try lia.
    cbn [decode_h flat_map]. rewrite encode_h_s16le, IH by lia. reflexivity.
Qed.

Lemma forallb_int16_decode (bs : list byte) : forallb int16 (decode_h bs) = true.
Proof.
  apply forallb_forall. intros v Hv.
  exact (proj1 (Forall_forall _ _) (decode_h_int16 bs) v Hv).
Qed.

(** X1. [struct.pack] and [struct.unpack] with the format of the
    recorder are inverse to each other: packing the values unpacked
    from a buffer gives back the buffer, and unpacking the bytes packed
    from a list of values gives back the values. *)
Theorem struct_round_trip :
  (forall n bs vs,
     unpack_h n bs = Ok vs -> pack_h vs = Ok bs /\ List.length vs = n) /\
  (forall vs bs,
     pack_h vs = Ok bs -> unpack_h (List.length vs) bs = Ok vs).
Proof.
  split.
  - intros n bs vs. unfold unpack_h, pack_h.
    destruct (Nat.eqb_spec (List.length bs) (2 * n)) as [Hlen|];
      [|discriminate].
    intros E. injection E as <-.
    rewrite forallb_int16_decode, (encode_decode_h n bs Hlen).
    split; [reflexivity|].
    rewrite length_decode_h, Hlen.
    clear. induction n as [|n IH]; [reflexivity|].
    replace (2 * S n)%nat with (S (S (2 * n))) by lia.
    cbn [Nat.div2]. now rewrite IH.
  - intros vs bs. unfold unpack_h, pack_h.
    destruct (forallb int16 vs) eqn:Hall; [|discriminate].
    intros E. injection E as <-.
    rewrite length_encode, Nat.eqb_refl. now rewrite decode_h_encode.
Qed.

Lemma struct_round_trip_witness :
  pack_h [513; -2] = Ok [x01; x02; xfe; xff] /\
  unpack_h 2 [x01; x02; xfe; xff] = Ok [513; -2].
Proof.
  destruct struct_round_trip as [Hup Hpu].
  assert (E : unpack_h 2 [x01; x02; xfe; xff] = Ok [513; -2]) by reflexivity.
  split; [exact (proj1 (Hup _ _ _ E)) | exact E].
Defined.

Lemma decode_packet_length (data : list byte) (seq_num : Z) (samples : list Z) :
  decode_packet data = Ok (seq_num, samples) -> List.length samples = 121%nat.
Proof.
  intros E. pose proof (samples_in_spec data) as H.
  unfold samples_in in H. rewrite E in H.
  destruct (243 <=? List.length data)%nat eqn:L; [exact H|].
  apply Nat.leb_gt in L. rewrite decode_packet_short in E by exact L.
  discriminate.
Qed.

(** X2. Only the first 243 bytes of a notification matter: the decoder
    and the handler do the same on a packet and on its first 243
    bytes. *)
Theorem trailing_bytes_ignored (now : Z) (data : list byte) (s : State) :
  decode_packet data = decode_packet (firstn 243 data) /\
  notification_handler now data s =
    notification_handler now (firstn 243 data) s.
Proof.
  assert (Hdec : decode_packet data = decode_packet (firstn 243 data)).
  { unfold decode_packet, slice.
    replace (firstn (2 - 0) (skipn 0 (firstn 243 data)))
      with (firstn (2 - 0) (skipn 0 data))
      by (cbn [skipn]; now rewrite firstn_firstn).
    replace (firstn (243 - 1) (skipn 1 (firstn 243 data)))
      with (firstn (243 - 1) (skipn 1 data)).
    - reflexivity.
    - change 243%nat with (1 + 242)%nat at 3.
      rewrite <- firstn_skipn_comm, firstn_firstn. reflexivity. }
  split; [exact Hdec|].
  unfold notification_handler, bind, get, lift. cbn.
  destruct (timedelta now (start_time s)) as [elapsed|ex]; [|reflexivity].
  destruct (elapsed <? SETTLE_US); [reflexivity|].
  now rewrite Hdec.
Qed.

(** ** What deliveries do to the buffers *)

(** Every run of deliveries appends one batch to the capture buffer,
    and the same batch to the recording buffer when recording is on. *)
Lemma deliver_appends (ns : list Notification) : forall s : State,
  exists more,
    audio_samples (snd (deliver ns s)) = audio_samples s ++ more /\
    recording (snd (deliver ns s)) =
      recording s ++ (if is_recording s then more else []) /\
    Forall (fun v => int16 v = true) more /\
    (List.length more mod 121 = 0)%nat.
Proof.
  induction ns as [|[now data] ns IH]; intros s.
  - exists []. cbn. rewrite !app_nil_r.
    destruct (is_recording s); rewrite ?app_nil_r; repeat split; auto.
  - rewrite deliver_cons. cbn [fst snd].
    destruct (IH (snd (notification_handler now data s)))
      as (more & Ha & Hr & Hi & Hm).
    destruct (handler_flags now data s) as (Hrec & _). cbn zeta in Hrec.
    rewrite Ha, Hr, Hrec.
    destruct (handler_cases now data s) as [[r E]|(q & xs & D & E)];
      rewrite E; cbn [snd].
    + exists more. auto.
    + exists (xs ++ more). cbn [appended audio_samples recording].
      rewrite <- !app_assoc. split; [reflexivity|]. split; [|split].
      * destruct (is_recording s); [now rewrite <- app_assoc|reflexivity].
      * apply Forall_app. split; [|exact Hi].
        now apply decode_packet_int16 with (data := data) (seq_num := q).
      * rewrite length_app, (decode_packet_length data q xs D).
        rewrite <- Nat.Div0.add_mod_idemp_l. cbn [Nat.modulo]. exact Hm.
Qed.

Lemma deliver_capture_length (t0 : Z) (ns : list Notification) :
  forall s : State,
    start_time s = Some t0 ->
    List.length (audio_samples (snd (deliver ns s))) =
      (List.length (audio_samples s) + samples_after t0 ns)%nat.
Proof.
  induction ns as [|[now data] ns IH]; intros s Hstart.
  - cbn. lia.
  - rewrite deliver_cons. cbn [snd fst samples_after].
    destruct (handler_flags now data s) as (_ & _ & C). cbn zeta in C.
    rewrite IH by congruence.
    unfold settled. cbn [fst].
    destruct (Z.ltb_spec (now - t0) SETTLE_US) as [Hlt|Hge]; cbn [negb].
    + rewrite (handler_early now t0 data s Hstart Hlt). cbn. lia.
    + rewrite (handler_settled now t0 data s Hstart Hge).
      unfold samples_in.
      destruct (decode_packet data) as [[seq_num samples]|e]; cbn.
      * rewrite length_app. lia.
      * lia.
Qed.

(** X3. Deliveries only ever append to the capture buffer, and with the
    stream started at [t0] it grows by exactly the samples of the
    packets that arrive at least two seconds after [t0], whether
    recording is on or off. *)
Theorem capture_grows_by_settled_packets
        (t0 : Z) (ns : list Notification) (s : State)
        (Hstart : start_time s = Some t0) :
  (exists more,
      audio_samples (snd (deliver ns s)) = audio_samples s ++ more /\
      List.length more = samples_after t0 ns).
Proof.
  destruct (deliver_appends ns s) as (more & Ha & _).
  exists more. split; [exact Ha|].
  pose proof (deliver_capture_length t0 ns s Hstart) as H.
  rewrite Ha, length_app in H. lia.
Qed.

Lemma capture_grows_by_settled_packets_witness :
  List.length
    (audio_samples
       (snd (deliver [(1999999, sample_packet); (2000000, sample_packet);
                      (2000001, short_packet); (3000000, sample_packet)]
               streaming_state))) = 242%nat.
Proof.
  destruct (capture_grows_by_settled_packets 0
              [(1999999, sample_packet); (2000000, sample_packet);
               (2000001, short_packet); (3000000, sample_packet)]
              streaming_state eq_refl) as (more & Ha & Hlen).
  rewrite Ha, length_app, Hlen. vm_compute. reflexivity.
Defined.

Lemma deliver_recording_bytes (t0 : Z) (ns : list Notification) :
  forall s : State,
    start_time s = Some t0 -> is_recording s = true ->
    flat_map encode_h (recording (snd (deliver ns s))) =
      flat_map encode_h (recording s) ++ payload_after t0 ns.
Proof.
  induction ns as [|[now data] ns IH]; intros s Hstart Hrec.
  - cbn. now rewrite app_nil_r.
  - rewrite deliver_cons. cbn [snd fst payload_after].
    destruct (handler_flags now data s) as (A & _ & C). cbn zeta in A, C.
    rewrite IH by congruence.
    unfold settled. cbn [fst].
    destruct (Z.ltb_spec (now - t0) SETTLE_US) as [Hlt|Hge]; cbn [negb andb].
    + now rewrite (handler_early now t0 data s Hstart Hlt).
    + rewrite (handler_settled now t0 data s Hstart Hge).
      destruct (Nat.leb_spec 243 (List.length data)) as [Hlen|Hlen].
      * rewrite (decode_packet_ok data Hlen). cbn [snd appended recording].
        rewrite Hrec, flat_map_app, <- app_assoc. do 2 f_equal.
        apply (encode_decode_h 121). rewrite length_slice. lia.
      * rewrite (decode_packet_short data Hlen). reflexivity.
Qed.

(** X4. What a recording saves is what the device sent: when recording
    starts on an empty buffer in a stream started at [t0], saving after
    any run of deliveries writes, as the frames of the file, bytes 1 to
    242 of each accepted packet (243 bytes or more, arrived two seconds
    or more after [t0]), one packet after the other, unchanged. *)
Theorem saved_frames_are_packet_bytes
        (t0 : Z) (ns : list Notification) (s : State)
        (filename : string) (e : Env)
        (Hstart : start_time s = Some t0)
        (Hrec : is_recording s = true) (Hempty : recording s = []) :
  exists w,
    save_recording filename (recording (snd (deliver ns s))) e =
      (Ok tt, close_as filename w e) /\
    frames w = payload_after t0 ns.
Proof.
  destruct (deliver_appends ns s) as (more & _ & Hr & Hint & _).
  rewrite Hrec, Hempty in Hr. cbn [app] in Hr.
  pose proof (deliver_recording_bytes t0 ns s Hstart Hrec) as Hbytes.
  rewrite Hempty in Hbytes. cbn [flat_map app] in Hbytes.
  assert (Hall : forallb int16 (recording (snd (deliver ns s))) = true).
  { rewrite Hr. apply forallb_forall. intros v Hv.
    exact (proj1 (Forall_forall _ _) Hint v Hv). }
  eexists. unfold save_recording, pack_h. rewrite Hall.
  split; [reflexivity|].
  cbn [writeframes frames setframerate setsampwidth setnchannels wave_open app].
  exact Hbytes.
Qed.

Lemma saved_frames_are_packet_bytes_witness :
  exists w,
    save_recording "take1.wav"
      (recording
         (snd (deliver [(1000000, sample_packet); (2500000, sample_packet)]
                 (set_is_recording true streaming_state))))
      initial_env = (Ok tt, close_as "take1.wav" w initial_env) /\
    frames w = slice 1 243 sample_packet.
Proof.
  destruct (saved_frames_are_packet_bytes 0
              [(1000000, sample_packet); (2500000, sample_packet)]
              (set_is_recording true streaming_state)
              "take1.wav" initial_env eq_refl eq_refl eq_refl)
    as (w & E & Hf).
  exists w. split; [exact E|]. rewrite Hf. vm_compute. reflexivity.
Defined.

(** ** Invariants along the command loop *)

Section Keeps.
Variable I : World -> Prop.

Lemma keeps_bind {A B} (m : M World A) (k : A -> M World B) :
  keeps I m -> (forall a, keeps I (k a)) -> keeps I (bind m k).
Proof.
  intros Hm Hk w Hw. unfold bind. specialize (Hm w Hw).
  destruct (m w) as [[a|ex] w']; cbn [snd] in *; [now apply Hk | exact Hm].
Qed.

Lemma keeps_ret {A} (a : A) : keeps I (ret a).
Proof. intros w Hw. exact Hw. Qed.

Lemma keeps_get : keeps I (on_state get).
Proof. intros [s e] Hw. exact Hw. Qed.

Lemma keeps_when (b : bool) (m : M World unit) :
  keeps I m -> keeps I (when b m).
Proof. intros Hm. destruct b; [exact Hm | apply keeps_ret]. Qed.

Hypothesis keeps_start : forall a,
  keeps I (b <- start_stream a ;; on_state (modify (set_is_streaming b))).
Hypothesis keeps_stop : forall a streaming start,
  keeps I (b <- stop_stream a streaming start ;;
           on_state (modify (set_is_streaming b))).
Hypothesis keeps_stop_record : forall rec,
  keeps I (b <- on_state (stop_recording rec) ;;
           on_state (modify (set_is_recording b))).
Hypothesis keeps_start_record :
  keeps I (b <- on_state start_recording ;;
           on_state (modify (set_is_recording b))).
Hypothesis keeps_save : forall filename rec,
  keeps I (on_env (save_recording filename rec)).
Hypothesis keeps_suspend : forall ns, keeps I (suspend ns).

Lemma keeps_dispatch (a : Answers) (command : string) :
  keeps I (dispatch a command).
Proof.
  unfold dispatch.
  apply keeps_bind; [apply keeps_get | intros s1].
  apply keeps_bind; [apply keeps_when, keeps_start | intros _].
  apply keeps_bind; [apply keeps_get | intros s2].
  apply keeps_bind.
  { destruct (_ && _); [apply keeps_stop|].
    destruct (_ && _); [apply keeps_stop_record | apply keeps_ret]. }
  intros _.
  apply keeps_bind; [apply keeps_get | intros s3].
  apply keeps_bind; [apply keeps_when, keeps_start_record | intros _].
  apply keeps_bind.
  { apply keeps_when, keeps_bind; [apply keeps_get | intros s4].
    apply keeps_save. }
  intros _.
  destruct (command =? "exit")%string; [|apply keeps_ret].
  apply keeps_bind; [apply keeps_get | intros s5].
  intros w Hw. rewrite <- bind_assoc. revert w Hw.
  apply keeps_bind; [apply keeps_stop | intros _; apply keeps_ret].
Qed.

Lemma keeps_command_loop (turns : list (Answers * string)) :
  keeps I (command_loop turns).
Proof.
  induction turns as [|[a command] rest IH]; [apply keeps_ret|].
  cbn [command_loop].
  apply keeps_bind; [apply keeps_suspend | intros _].
  apply keeps_bind; [apply keeps_dispatch | intros [|]];
    [exact IH | apply keeps_ret].
Qed.

End Keeps.

(** *** Invariants of the buffers *)

Lemma grows_refl (s : State) : grows s s.
Proof.
  exists []. rewrite app_nil_r.
  destruct (is_recording s); rewrite ?app_nil_r; repeat split; auto.
Qed.

Lemma grows_trans (s1 s2 s3 : State) : grows s1 s2 -> grows s2 s3 -> grows s1 s3.
Proof.
  intros (m1 & A1 & R1 & I1 & L1 & F1) (m2 & A2 & R2 & I2 & L2 & F2).
  exists (m1 ++ m2).
  split; [now rewrite A2, A1, <- app_assoc|].
  split.
  { rewrite R2, R1, F1.
    destruct (is_recording s1); rewrite ?app_nil_r, <- ?app_assoc; reflexivity. }
  split; [apply Forall_app; now split|].
  split; [|congruence].
  rewrite length_app, <- Nat.Div0.add_mod_idemp_l, L1. exact L2.
Qed.

Lemma heard_grows (ns : list Notification) (e : Env) (s : State) :
  grows s (heard ns e s).
Proof.
  unfold heard. destruct (notifying e); [|apply grows_refl].
  destruct (deliver_appends ns s) as (more & A & R & Hi & L).
  exists more. repeat split; try assumption. apply deliver_flags.
Qed.

(** Setting the streaming flag or the start time is no change for the
    buffers. *)
Lemma grows_flags (s s' : State) (b : bool) :
  grows s s' -> grows s (set_is_streaming b s').
Proof. intros (more & H). exists more. exact H. Qed.

Lemma grows_start_time (s s' : State) (t : Z) :
  grows s s' -> grows s (set_start_time t s').
Proof. intros (more & H). exists more. exact H. Qed.

Lemma start_block_grows (a : Answers) (s : State) (e : Env) :
  grows s (fst (snd ((b <- start_stream a ;;
                      on_state (modify (set_is_streaming b))) (s, e)))).
Proof.
  unfold bind. rewrite start_stream_eq. cbv zeta.
  assert (H3 : grows s (heard (inflight a (WriteGattChar [x01]))
                          (after_op StartNotify (negb (fails a StartNotify))
                             (logged (inflight a StartNotify) s e))
                          (heard (inflight a StartNotify) e s)))
    by (eapply grows_trans; apply heard_grows).
  destruct (fails a StartNotify);
    [|destruct (fails a (WriteGattChar [x01]))]; cbn [fst snd on_state modify].
  - apply grows_flags, heard_grows.
  - apply grows_flags, H3.
  - apply grows_flags, grows_start_time, H3.
Qed.

Lemma stop_block_grows (a : Answers) (streaming : bool) (start : option Z)
      (s : State) (e : Env) :
  grows s (fst (snd ((b <- stop_stream a streaming start ;;
                      on_state (modify (set_is_streaming b))) (s, e)))).
Proof.
  unfold bind. destruct streaming.
  - rewrite stop_stream_eq. cbv zeta.
    assert (H3 : grows s (heard (inflight a StopNotify)
                            (after_op (WriteGattChar [x00])
                               (negb (fails a (WriteGattChar [x00])))
                               (logged (inflight a (WriteGattChar [x00])) s e))
                            (heard (inflight a (WriteGattChar [x00])) e s)))
      by (eapply grows_trans; apply heard_grows).
    destruct (fails a (WriteGattChar [x00]));
      [|destruct (fails a StopNotify); [|destruct start]];
      cbn [fst snd on_state modify];
      solve [apply heard_grows | exact H3 | apply grows_flags, H3].
  - rewrite stop_stream_idle. cbn. apply grows_flags, grows_refl.
Qed.

Section BufferInvariant.
Variable P : State -> Prop.
Hypothesis P_grows : forall s s', P s -> grows s s' -> P s'.
Hypothesis P_stop_record : forall s, P s -> P (set_is_recording false s).
Hypothesis P_start_record :
  forall s, P s -> P (set_is_recording true (set_recording [] s)).

(** A property of the state that deliveries, [stop_record] and
    [start_record] keep is kept by the whole loop. *)
Lemma command_loop_keeps (turns : list (Answers * string)) :
  keeps (fun w => P (fst w)) (command_loop turns).
Proof.
  apply keeps_command_loop.
  - intros a [s e] Hw. eapply P_grows; [exact Hw | apply start_block_grows].
  - intros a streaming start [s e] Hw.
    eapply P_grows; [exact Hw | apply stop_block_grows].
  - intros rec [s e] Hw. cbn. now apply P_stop_record.
  - intros [s e] Hw. cbn. now apply P_start_record.
  - intros filename rec [s e] Hw. unfold on_env. cbn [fst snd].
    now destruct (save_recording filename rec e).
  - intros ns [s e] Hw. rewrite suspend_eq. cbn [fst snd].
    eapply P_grows; [exact Hw | apply heard_grows].
Qed.

End BufferInvariant.

(** X5. The capture buffer is append-only: whatever commands are typed,
    whatever the transport does and however the loop ends, the capture
    buffer at the end is the capture buffer at the start followed by
    what was captured in between. *)
Theorem capture_is_append_only (turns : list (Answers * string)) (w : World) :
  exists more,
    audio_samples (fst (snd (command_loop turns w))) =
      audio_samples (fst w) ++ more.
Proof.
  apply (command_loop_keeps
           (fun s => exists more, audio_samples s = audio_samples (fst w) ++ more)).
  - intros s s' (m1 & E1) (m2 & E2 & _). exists (m1 ++ m2).
    now rewrite E2, E1, app_assoc.
  - intros s H. exact H.
  - intros s H. exact H.
  - exists []. now rewrite app_nil_r.
Qed.

Lemma buffers_ok_grows (s s' : State) : buffers_ok s -> grows s s' -> buffers_ok s'.
Proof.
  intros ([Ia Ir] & [La Lr] & (pre & post & W & Wp)) (more & A & R & Im & Lm & F).
  split; [|split].
  - split; rewrite ?A, ?R; apply Forall_app; split; auto.
    destruct (is_recording s); auto.
  - split; rewrite ?A, ?R, length_app, <- Nat.Div0.add_mod_idemp_l, ?La, ?Lr.
    + exact Lm.
    + destruct (is_recording s); [exact Lm | reflexivity].
  - unfold window. rewrite A, R, F.
    destruct (is_recording s) eqn:Hrec.
    + exists pre, []. rewrite W, (Wp eq_refl), !app_nil_r.
      split; [now rewrite app_assoc | reflexivity].
    + exists pre, (post ++ more). rewrite W, app_nil_r, <- !app_assoc.
      split; [reflexivity | discriminate].
Qed.

Lemma buffers_ok_loop (turns : list (Answers * string)) :
  buffers_ok (fst (snd (command_loop turns (initial_state, initial_env)))).
Proof.
  apply (command_loop_keeps buffers_ok).
  - exact buffers_ok_grows.
  - intros s (H1 & H2 & (pre & post & W & _)). split; [exact H1|].
    split; [exact H2|]. exists pre, post. split; [exact W | discriminate].
  - intros s ([Ia _] & [La _] & _). split; [|split].
    + split; [exact Ia | constructor].
    + split; [exact La | reflexivity].
    + exists (audio_samples s), []. cbn. now rewrite app_nil_r.
  - split; [|split].
    + split; constructor.
    + split; reflexivity.
    + exists [], []. split; [reflexivity | discriminate].
Qed.

(** X6. In a session both buffers always hold whole packets: their
    lengths are multiples of 121, whatever was typed and received. *)
Theorem buffers_hold_whole_packets (turns : list (Answers * string)) :
  let s := fst (snd (command_loop turns (initial_state, initial_env))) in
  (List.length (audio_samples s) mod 121 = 0)%nat /\
  (List.length (recording s) mod 121 = 0)%nat.
Proof. apply (buffers_ok_loop turns). Qed.

(** X7. In a session the recording buffer is always a window on the
    capture buffer: a run of consecutive captured samples, and the most
    recent ones while recording is on. *)
Theorem recording_is_window_on_capture (turns : list (Answers * string)) :
  let s := fst (snd (command_loop turns (initial_state, initial_env))) in
  exists pre post,
    audio_samples s = pre ++ recording s ++ post /\
    (is_recording s = true -> post = []).
Proof. apply (buffers_ok_loop turns). Qed.

(** *** What the loop can die of *)

Lemma sound_bind {A B} (m : M World A) (k : A -> M World B) (w : World) :
  sound m w -> (forall a w', healthy w' -> sound (k a) w') ->
  sound (bind m k) w.
Proof.
  unfold sound, bind. intros [Hh Hr] Hk.
  destruct (m w) as [[a|ex] w']; cbn [fst snd] in *;
    [apply Hk; exact Hh | split; [exact Hh|]].
  intros ex0 E. injection E as <-. now apply Hr.
Qed.

Lemma sound_get {B} (k : State -> M World B) (w : World) :
  sound (k (fst w)) w -> sound (bind (on_state get) k) w.
Proof. destruct w as [s e]. exact (fun H => H). Qed.

Lemma sound_ret {A} (a : A) (w : World) : healthy w -> sound (ret a) w.
Proof. intros H. split; [exact H | discriminate]. Qed.

Lemma heard_int16 (ns : list Notification) (e : Env) (s : State) :
  buffers_int16 s -> buffers_int16 (heard ns e s).
Proof.
  unfold heard. destruct (notifying e); [apply deliver_int16 | auto].
Qed.

Lemma healthy_suspended (ns : list Notification) (s : State) (e : Env) :
  healthy (s, e) -> healthy (heard ns e s, logged ns s e).
Proof.
  unfold healthy, started_if_streaming. cbn [fst snd].
  destruct (heard_flags ns e s) as (_ & -> & ->).
  destruct (logged_transport ns s e) as (-> & _).
  intros (H1 & H2 & H3).
  split; [exact H1 | split; [exact H2 | now apply heard_int16]].
Qed.

Lemma sound_suspend (ns : list Notification) (w : World) :
  healthy w -> sound (suspend ns) w.
Proof.
  destruct w as [s e]. intros H. unfold sound. rewrite suspend_eq.
  split; [now apply healthy_suspended | discriminate].
Qed.

Lemma sound_start (a : Answers) (w : World) :
  healthy w ->
  sound (b <- start_stream a ;; on_state (modify (set_is_streaming b))) w.
Proof.
  destruct w as [s e]. intros H.
  pose proof (healthy_suspended (inflight a StartNotify) s e H) as (_ & _ & I1).
  cbn [fst] in I1.
  unfold sound, bind. rewrite start_stream_eq. cbv zeta.
  remember (heard (inflight a StartNotify) e s) as s1 eqn:Es1.
  remember (logged (inflight a StartNotify) s e) as e1 eqn:Ee1.
  destruct (fails a StartNotify); cbn [negb].
  - split; [|discriminate].
    split; [|split]; [discriminate | discriminate | exact I1].
  - remember (after_op StartNotify true e1) as e2 eqn:Ee2.
    assert (N2 : notifying e2 = true) by (rewrite Ee2; reflexivity).
    pose proof (logged_transport (inflight a (WriteGattChar [x01])) s1 e2)
      as (N3 & _).
    pose proof (heard_int16 (inflight a (WriteGattChar [x01])) e2 s1 I1) as I3.
    remember (heard (inflight a (WriteGattChar [x01])) e2 s1) as s3 eqn:Es3.
    remember (logged (inflight a (WriteGattChar [x01])) s1 e2) as e3 eqn:Ee3.
    destruct (fails a (WriteGattChar [x01])); cbn [negb].
    + split; [|discriminate].
      split; [|split]; [discriminate | discriminate | exact I3].
    + split; [|discriminate]. split; [|split].
      * intros _. discriminate.
      * intros _. cbn [fst snd on_state modify after_op notifying].
        now rewrite N3.
      * exact I3.
Qed.

Lemma sound_stop (a : Answers) (w : World) :
  healthy w ->
  sound (b <- stop_stream a (is_streaming (fst w)) (start_time (fst w)) ;;
         on_state (modify (set_is_streaming b))) w.
Proof.
  destruct w as [s e]. intros H. cbn [fst].
  unfold sound, bind. destruct (is_streaming s) eqn:Hon.
  - destruct H as (Hst & Hsub & Hint). cbn [fst snd] in Hst, Hsub, Hint.
    specialize (Hst Hon). specialize (Hsub Hon).
    destruct (start_time s) as [t0|] eqn:Hstart; [|contradiction].
    rewrite stop_stream_eq. cbv zeta.
    pose proof (heard_flags (inflight a (WriteGattChar [x00])) e s)
      as (_ & _ & F1).
    pose proof (logged_transport (inflight a (WriteGattChar [x00])) s e)
      as (N1 & _).
    pose proof (heard_int16 (inflight a (WriteGattChar [x00])) e s Hint) as I1.
    remember (heard (inflight a (WriteGattChar [x00])) e s) as s1 eqn:Es1.
    remember (logged (inflight a (WriteGattChar [x00])) s e) as e1 eqn:Ee1.
    destruct (fails a (WriteGattChar [x00])); cbn [negb].
    + split; [|intros ex E; now injection E as <-].
      split; [|split]; unfold started_if_streaming;
        cbn [fst snd after_op notifying].
      * intros _. rewrite F1, Hstart. discriminate.
      * intros _. now rewrite N1.
      * exact I1.
    + remember (after_op (WriteGattChar [x00]) true e1) as e2 eqn:Ee2.
      assert (N2 : notifying e2 = true) by (rewrite Ee2; cbn; now rewrite N1).
      pose proof (heard_flags (inflight a StopNotify) e2 s1) as (_ & _ & F3).
      pose proof (logged_transport (inflight a StopNotify) s1 e2) as (N3 & _).
      pose proof (heard_int16 (inflight a StopNotify) e2 s1 I1) as I3.
      remember (heard (inflight a StopNotify) e2 s1) as s3 eqn:Es3.
      remember (logged (inflight a StopNotify) s1 e2) as e3 eqn:Ee3.
      destruct (fails a StopNotify); cbn [negb].
      * split; [|intros ex E; now injection E as <-].
        split; [|split]; unfold started_if_streaming;
        cbn [fst snd after_op notifying].
        -- intros _. rewrite F3, F1, Hstart. discriminate.
        -- intros _. now rewrite N3.
        -- exact I3.
      * split; [|discriminate].
        split; [|split]; [discriminate | discriminate | exact I3].
  - rewrite stop_stream_idle. split; [|discriminate].
    destruct H as (_ & _ & Hint).
    split; [|split]; [discriminate | discriminate | exact Hint].
Qed.

Lemma sound_save (filename : string) (w : World) (rec : list Z) :
  healthy w -> Forall (fun v => int16 v = true) rec ->
  sound (on_env (save_recording filename rec)) w.
Proof.
  destruct w as [s e]. intros H Hrec.
  destruct (save_recording_wav filename rec e Hrec) as (wv & E & _).
  unfold sound, on_env. cbn [fst snd]. rewrite E.
  split; [exact H | discriminate].
Qed.

Lemma sound_dispatch (a : Answers) (command : string) (w : World) :
  healthy w -> sound (dispatch a command) w.
Proof.
  intros H. unfold dispatch.
  apply sound_get, sound_bind.
  { unfold when. destruct (_ && _); [now apply sound_start | now apply sound_ret]. }
  clear w H. intros _ w H.
  apply sound_get, sound_bind.
  { destruct (_ && _); [now apply sound_stop|].
    destruct (_ && _); [|now apply sound_ret].
    destruct w as [s e]. split; [exact H | discriminate]. }
  clear w H. intros _ w H.
  apply sound_get, sound_bind.
  { unfold when. destruct (_ && _); [|now apply sound_ret].
    destruct w as [s e]. split; [|discriminate].
    destruct H as (H1 & H2 & [Ha _]).
    split; [exact H1 | split; [exact H2 | split; [exact Ha | constructor]]]. }
  clear w H. intros _ w H.
  apply sound_bind.
  { unfold when. destruct (command =? "save_record")%string;
      [|now apply sound_ret].
    apply sound_get, sound_save; [exact H | apply H]. }
  clear w H. intros _ w H.
  destruct (command =? "exit")%string; [|now apply sound_ret].
  apply sound_get.
  assert (Hs := sound_stop a w H).
  assert (Hk : forall (u : unit) w', healthy w' ->
                 sound (@ret World Flow Break) w')
    by (intros; now apply sound_ret).
  pose proof (sound_bind _ _ w Hs Hk) as Hb.
  unfold sound in *. now rewrite bind_assoc in Hb.
Qed.

Lemma sound_command_loop (turns : list (Answers * string)) :
  forall w, healthy w -> sound (command_loop turns) w.
Proof.
  induction turns as [|[a command] rest IH]; intros w H;
    [now apply sound_ret|].
  cbn [command_loop].
  apply sound_bind; [now apply sound_suspend|]. intros _ w1 H1.
  apply sound_bind; [now apply sound_dispatch|]. intros [|] w2 H2;
    [now apply IH | now apply sound_ret].
Qed.

Lemma sound_session (turns : list (Answers * string)) :
  forall w, healthy w -> sound (session turns) w.
Proof.
  intros w H. unfold session.
  apply sound_bind; [now apply sound_command_loop|].
  intros [|] w1 H1; [|now apply sound_ret].
  unfold export_capture. apply sound_get.
  destruct (Nat.eqb _ _); [now apply sound_ret|].
  apply sound_bind; [|intros; now apply sound_ret].
  apply sound_save; [exact H1 | apply H1].
Qed.

Lemma initial_world_healthy : healthy (initial_state, initial_env).
Proof.
  split; [|split]; [discriminate | discriminate | split; constructor].
Qed.

(** X8. In a session, whatever is typed and received, neither the
    command loop nor the export ever raises a type error or a
    [struct.error]: the subtraction in [stop_stream] always finds a
    start time, and [struct.pack] always finds 16-bit samples, in the
    file export too. The only exception that can end them is one
    raised by a client call. (Failures of the file system and of the
    keyboard are outside the model.) *)
Theorem session_dies_only_of_transport
        (turns : list (Answers * string)) (ex : exn) (w : World) :
  session turns (initial_state, initial_env) = (Raise ex, w) ->
  ex = BleakError.
Proof.
  intros E.
  destruct (sound_session turns _ initial_world_healthy) as [_ H].
  apply H. now rewrite E.
Qed.

Lemma session_dies_only_of_transport_witness :
  fst (session [(quiet, "start_stream"%string); (write_fails, "exit"%string)]
         (initial_state, initial_env)) = Raise BleakError.
Proof.
  destruct (session [(quiet, "start_stream"%string);
                     (write_fails, "exit"%string)]
              (initial_state, initial_env)) as [[r|ex] w] eqn:E.
  - vm_compute in E. discriminate E.
  - cbn [fst]. f_equal. exact (session_dies_only_of_transport _ ex w E).
Defined.

(** X9. In a session the streaming flag never runs ahead of the
    subscription: whenever [is_streaming] is true the handler is
    subscribed, also when the loop has just died of a failed stop. *)
Theorem streaming_implies_subscribed (turns : list (Answers * string)) :
  let w := snd (command_loop turns (initial_state, initial_env)) in
  is_streaming (fst w) = true -> notifying (snd w) = true.
Proof.
  destruct (sound_command_loop turns _ initial_world_healthy)
    as [(_ & H & _) _].
  exact H.
Qed.

Lemma streaming_implies_subscribed_witness :
  notifying
    (snd (snd (command_loop [(quiet, "start_stream"%string);
                             (write_fails, "stop_stream"%string)]
                 (initial_state, initial_env)))) = true.
Proof.
  apply (streaming_implies_subscribed
           [(quiet, "start_stream"%string);
            (write_fails, "stop_stream"%string)]).
  reflexivity.
Defined.

(** ** The commands one by one *)

(** X10. A command that is none of the six is ignored: the loop goes
    on and nothing changes. *)
Theorem unknown_command_ignored (a : Answers) (command : string) (w : World) :
  command <> "start_stream"%string -> command <> "stop_stream"%string ->
  command <> "stop_record"%string -> command <> "start_record"%string ->
  command <> "save_record"%string -> command <> "exit"%string ->
  dispatch a command w = (Ok Continue, w).
Proof.
  intros H1 H2 H3 H4 H5 H6. unfold dispatch, when.
  apply String.eqb_neq in H1, H2, H3, H4, H5, H6.
  rewrite H1, H2, H3, H4, H5, H6. now destruct w.
Qed.

Lemma unknown_command_ignored_witness :
  dispatch write_fails "Exit" (streaming_state, subscribed_env) =
    (Ok Continue, (streaming_state, subscribed_env)).
Proof.
  apply unknown_command_ignored; discriminate.
Defined.

Lemma dispatch_start_record (a : Answers) (s : State) (e : Env) :
  is_recording s = false ->
  dispatch a "start_record" (s, e) =
    (Ok Continue, (set_is_recording true (set_recording [] s), e)).
Proof.
  intros Hrec. unfold dispatch, when.
  cbn [String.eqb Ascii.eqb Bool.eqb andb].
  unfold bind, on_state, get, ret. cbn [fst snd].
  rewrite Hrec. reflexivity.
Qed.

Lemma dispatch_stop_record (a : Answers) (s : State) (e : Env) :
  is_recording s = true ->
  dispatch a "stop_record" (s, e) =
    (Ok Continue, (set_is_recording false s, e)).
Proof.
  intros Hrec. unfold dispatch, when.
  cbn [String.eqb Ascii.eqb Bool.eqb andb].
  unfold bind, on_state, get, ret. cbn [fst snd].
  rewrite Hrec. reflexivity.
Qed.

(** X11. A command typed in the wrong state does nothing at all:
    [start_stream] while streaming, [stop_stream] while not streaming,
    [start_record] while recording and [stop_record] while not
    recording leave the state and the transport as they are, and the
    loop goes on. *)
Theorem guarded_commands_do_nothing (a : Answers) (s : State) (e : Env) :
  (is_streaming s = true ->
   dispatch a "start_stream" (s, e) = (Ok Continue, (s, e))) /\
  (is_streaming s = false ->
   dispatch a "stop_stream" (s, e) = (Ok Continue, (s, e))) /\
  (is_recording s = true ->
   dispatch a "start_record" (s, e) = (Ok Continue, (s, e))) /\
  (is_recording s = false ->
   dispatch a "stop_record" (s, e) = (Ok Continue, (s, e))).
Proof.
  repeat split; intros H; unfold dispatch, when;
    cbn [String.eqb Ascii.eqb Bool.eqb andb];
    unfold bind, on_state, get, ret; cbn [fst snd];
    rewrite ?H; cbn [negb andb]; rewrite ?H; reflexivity.
Qed.

Lemma guarded_commands_do_nothing_witness :
  dispatch write_fails "start_stream" (streaming_state, subscribed_env) =
    (Ok Continue, (streaming_state, subscribed_env)) /\
  dispatch write_fails "stop_stream" (initial_state, initial_env) =
    (Ok Continue, (initial_state, initial_env)) /\
  dispatch quiet "start_record"
    (set_is_recording true streaming_state, subscribed_env) =
    (Ok Continue, (set_is_recording true streaming_state, subscribed_env)) /\
  dispatch quiet "stop_record" (streaming_state, subscribed_env) =
    (Ok Continue, (streaming_state, subscribed_env)).
Proof.
  split; [|split; [|split]].
  - apply (guarded_commands_do_nothing write_fails streaming_state
             subscribed_env). reflexivity.
  - apply (guarded_commands_do_nothing write_fails initial_state initial_env).
    reflexivity.
  - apply (guarded_commands_do_nothing quiet
             (set_is_recording true streaming_state) subscribed_env).
    reflexivity.
  - apply (guarded_commands_do_nothing quiet streaming_state subscribed_env).
    reflexivity.
Defined.

Lemma dispatch_fs_save_record (opens : bool) (a : Answers)
      (s : State) (e : Env) :
  dispatch_fs opens a "save_record" (s, e) =
    match save_recording_fs opens (typed_filename a) (recording s) e with
    | (Ok _, e') => (Ok Continue, (s, e'))
    | (Raise ex, e') => (Raise ex, (s, e'))
    end.
Proof.
  unfold dispatch_fs, when. cbn [String.eqb Ascii.eqb Bool.eqb andb].
  unfold bind, on_state, on_env, get, ret. cbn [fst snd].
  destruct (save_recording_fs opens (typed_filename a) (recording s) e)
    as [[u|ex] e']; reflexivity.
Qed.

(** On a file system that accepts every name the loop body is the one
    of the sessions above. *)
Lemma dispatch_fs_accepting (a : Answers) (command : string) (w : World) :
  dispatch_fs true a command w = dispatch a command w.
Proof. reflexivity. Qed.

(** X12. [save_record] only reads. When the file system opens the typed
    name, it writes the current recording buffer under that name and
    leaves the session state, the buffer included, exactly as it was,
    so recording goes on and a second save that opens writes the same
    samples again. When the file system refuses the name, the command
    ends the loop by the error of [wave.open], with the state as it was
    and nothing written. *)
Theorem save_record_only_reads
        (opens : bool) (a : Answers) (s : State) (e : Env)
        (Hint : Forall (fun v => int16 v = true) (recording s)) :
  (opens = true ->
   exists wv,
     dispatch_fs opens a "save_record" (s, e) =
       (Ok Continue, (s, close_as (typed_filename a) wv e)) /\
     decode_h (frames wv) = recording s /\
     forall a', exists wv',
       dispatch_fs opens a' "save_record"
         (s, close_as (typed_filename a) wv e) =
         (Ok Continue,
          (s, close_as (typed_filename a') wv'
                (close_as (typed_filename a) wv e))) /\
       frames wv' = frames wv) /\
  (opens = false ->
   dispatch_fs opens a "save_record" (s, e) = (Raise OSError, (s, e))).
Proof.
  split; intros ->; [|now rewrite dispatch_fs_save_record].
  assert (Hall : forallb int16 (recording s) = true)
    by (apply forallb_forall; intros v Hv;
        exact (proj1 (Forall_forall _ _) Hint v Hv)).
  assert (Hsave : forall a0 e0,
             dispatch_fs true a0 "save_record" (s, e0) =
               (Ok Continue,
                (s, close_as (typed_filename a0)
                      (writeframes (flat_map encode_h (recording s))
                         (setframerate SAMPLE_RATE
                            (setsampwidth 2 (setnchannels 1 wave_open))))
                      e0))).
  { intros a0 e0. rewrite dispatch_fs_save_record.
    unfold save_recording_fs, save_recording, pack_h. now rewrite Hall. }
  eexists. split; [apply Hsave|]. split.
  - cbn [writeframes frames setframerate setsampwidth setnchannels
           wave_open app].
    now apply decode_h_encode.
  - intros a'. eexists. split; [apply Hsave | reflexivity].
Qed.

Lemma save_record_only_reads_witness :
  (exists wv,
     dispatch_fs true quiet "save_record"
       (set_recording [1; -1] (set_is_recording true streaming_state),
        subscribed_env) =
       (Ok Continue,
        (set_recording [1; -1] (set_is_recording true streaming_state),
         close_as "take1.wav" wv subscribed_env)) /\
     decode_h (frames wv) = [1; -1]) /\
  dispatch_fs false quiet "save_record"
    (set_recording [1; -1] (set_is_recording true streaming_state),
     subscribed_env) =
    (Raise OSError,
     (set_recording [1; -1] (set_is_recording true streaming_state),
      subscribed_env)).
Proof.
  assert (Hint : Forall (fun v => int16 v = true)
                   (recording (set_recording [1; -1]
                                 (set_is_recording true streaming_state))))
    by (repeat constructor).
  split.
  - destruct (save_record_only_reads true quiet _ subscribed_env Hint)
      as [Hok _].
    destruct (Hok eq_refl) as (wv & E & Hdec & _).
    exists wv. split; [exact E | exact Hdec].
  - destruct (save_record_only_reads false quiet _ subscribed_env Hint)
      as [_ Hno].
    exact (Hno eq_refl).
Defined.

(** X13. A recording holds what arrived between [start_record] and
    [stop_record]: in a subscribed session started at [t0] and not
    recording, typing [start_record] and then [stop_record] leaves
    recording off and the buffer holding exactly the samples of the
    packets accepted while the second command was awaited, whatever the
    buffer held before and whatever arrived before the first command;
    its bytes are the bytes of those packets. *)
Theorem recording_holds_what_arrived_between
        (a1 a2 : Answers) (s : State) (e : Env) (t0 : Z)
        (Hsub : notifying e = true)
        (Hidle : is_recording s = false)
        (Hstart : start_time s = Some t0) :
  exists s' e',
    command_loop [(a1, "start_record"%string); (a2, "stop_record"%string)]
      (s, e) = (Ok WaitingForInput, (s', e')) /\
    is_recording s' = false /\
    List.length (recording s') = samples_after t0 (idle a2) /\
    flat_map encode_h (recording s') = payload_after t0 (idle a2).
Proof.
  destruct (heard_flags (idle a1) e s) as (F1 & _ & F3).
  destruct (logged_transport (idle a1) s e) as (N1 & _).
  remember (heard (idle a1) e s) as s1 eqn:Es1.
  remember (logged (idle a1) s e) as e1 eqn:Ee1.
  remember (set_is_recording true (set_recording [] s1)) as s2 eqn:Es2.
  assert (R2 : is_recording s2 = true) by (now rewrite Es2).
  assert (T2 : start_time s2 = Some t0)
    by (rewrite Es2; cbn; now rewrite F3).
  assert (B2 : recording s2 = []) by (now rewrite Es2).
  assert (H2 : heard (idle a2) e1 s2 = snd (deliver (idle a2) s2))
    by (unfold heard; now rewrite N1, Hsub).
  destruct (deliver_flags (idle a2) s2) as (G1 & _ & _). cbn zeta in G1.
  exists (set_is_recording false (snd (deliver (idle a2) s2))),
         (logged (idle a2) s2 e1).
  split; [|split; [|split]].
  - rewrite command_loop_cons, <- Es1, <- Ee1.
    rewrite dispatch_start_record by congruence. rewrite <- Es2.
    rewrite command_loop_cons, H2.
    rewrite dispatch_stop_record by congruence. reflexivity.
  - reflexivity.
  - cbn [set_is_recording recording].
    rewrite (deliver_recording_length t0 (idle a2) s2 T2 R2), B2.
    reflexivity.
  - cbn [set_is_recording recording].
    rewrite (deliver_recording_bytes t0 (idle a2) s2 T2 R2), B2.
    reflexivity.
Qed.

Lemma recording_holds_what_arrived_between_witness :
  List.length
    (recording
       (fst (snd (command_loop
                    [(hears [(2000000, sample_packet)], "start_record"%string);
                     (hears [(2100000, sample_packet);
                             (2200000, short_packet);
                             (2300000, sample_packet)], "stop_record"%string)]
                    (set_recording [7] streaming_state, subscribed_env)))))
  = 242%nat.
Proof.
  destruct (recording_holds_what_arrived_between
              (hears [(2000000, sample_packet)])
              (hears [(2100000, sample_packet); (2200000, short_packet);
                      (2300000, sample_packet)])
              (set_recording [7] streaming_state) subscribed_env 0
              eq_refl eq_refl eq_refl) as (s' & e' & E & _ & Hlen & _).
  rewrite E. cbn [fst snd]. rewrite Hlen. vm_compute. reflexivity.
Defined.

(** ** Starting a stream *)

(** X14. [start_stream] never raises. It returns [True] exactly when
    the subscription and the START write both succeed, and then the
    start time is the clock reading taken after the write and the
    handler is subscribed; otherwise the start time is left as it was.
    When the subscription fails the START command is not written. On
    every path the buffers only grow by what was delivered meanwhile. *)
Theorem start_stream_outcome (a : Answers) (s : State) (e : Env) :
  exists s' e',
    start_stream a (s, e) =
      (Ok (negb (fails a StartNotify) && negb (fails a (WriteGattChar [x01]))),
       (s', e')) /\
    grows s s' /\
    is_streaming s' = is_streaming s /\
    (fails a StartNotify = false -> fails a (WriteGattChar [x01]) = false ->
     start_time s' = Some (clock a) /\ notifying e' = true /\
     gatt_log e' =
       gatt_log e ++ [(StartNotify, true); (WriteGattChar [x01], true)]) /\
    (fails a StartNotify = true \/ fails a (WriteGattChar [x01]) = true ->
     start_time s' = start_time s) /\
    (fails a StartNotify = true ->
     gatt_log e' = gatt_log e ++ [(StartNotify, false)] /\
     notifying e' = notifying e).
Proof.
  rewrite start_stream_eq. cbv zeta.
  pose proof (heard_grows (inflight a StartNotify) e s) as G1.
  pose proof (heard_flags (inflight a StartNotify) e s) as (_ & S1 & T1).
  pose proof (logged_transport (inflight a StartNotify) s e) as (N1 & L1 & _).
  remember (heard (inflight a StartNotify) e s) as s1 eqn:Es1.
  remember (logged (inflight a StartNotify) s e) as e1 eqn:Ee1.
  destruct (fails a StartNotify) eqn:F1; cbn [negb andb].
  - do 2 eexists. split; [reflexivity|].
    split; [exact G1|]. split; [exact S1|].
    split; [discriminate|]. split; [intros _; exact T1|].
    intros _. cbn [after_op gatt_log notifying]. now rewrite L1, N1.
  - remember (after_op StartNotify true e1) as e2 eqn:Ee2.
    pose proof (heard_grows (inflight a (WriteGattChar [x01])) e2 s1) as G3.
    pose proof (heard_flags (inflight a (WriteGattChar [x01])) e2 s1)
      as (_ & S3 & T3).
    pose proof (logged_transport (inflight a (WriteGattChar [x01])) s1 e2)
      as (N3 & L3 & _).
    remember (heard (inflight a (WriteGattChar [x01])) e2 s1) as s3 eqn:Es3.
    remember (logged (inflight a (WriteGattChar [x01])) s1 e2) as e3 eqn:Ee3.
    assert (G : grows s s3) by (eapply grows_trans; eassumption).
    destruct (fails a (WriteGattChar [x01])) eqn:F2; cbn [negb andb].
    + do 2 eexists. split; [reflexivity|].
      split; [exact G|]. split; [congruence|].
      split; [discriminate|]. split; [intros _; congruence|]. discriminate.
    + do 2 eexists. split; [reflexivity|].
      split; [now apply grows_start_time|]. split; [cbn; congruence|].
      split; [|split; [intros [H|H]; discriminate H | discriminate]].
      intros _ _. split; [reflexivity|].
      cbn [after_op gatt_log notifying]. rewrite N3, L3, Ee2.
      cbn [after_op gatt_log notifying]. rewrite L1, <- app_assoc.
      split; reflexivity.
Qed.

Lemma start_stream_outcome_witness :
  exists e',
    start_stream quiet (initial_state, initial_env) =
      (Ok true, (set_start_time 5000000 initial_state, e')) /\
    gatt_log e' = [(StartNotify, true); (WriteGattChar [x01], true)].
Proof.
  destruct (start_stream_outcome quiet initial_state initial_env)
    as (s' & e' & E & _ & _ & Hok & _).
  destruct (Hok eq_refl eq_refl) as (_ & _ & Hlog).
  exists e'. split; [|exact Hlog].
  rewrite E. vm_compute in E. injection E as <- <-. reflexivity.
Defined.

(** X15. On a restart the settling time is still measured from the
    previous start while the START write is awaited: a full packet
    dispatched during that write, two seconds or more after the old
    start time, is captured, although it arrives before the new start
    time. *)
Theorem restart_measures_from_old_start
        (a : Answers) (s : State) (e : Env)
        (t_old now : Z) (data : list byte)
        (Hold : start_time s = Some t_old)
        (Hoff : notifying e = false)
        (Hsub : fails a StartNotify = false)
        (Hone : inflight a (WriteGattChar [x01]) = [(now, data)])
        (Hlate : SETTLE_US <= now - t_old)
        (Hlen : (243 <= List.length data)%nat) :
  exists samples,
    decode_packet data = Ok (u16le (nth 0 data x00) (nth 1 data x00), samples) /\
    audio_samples (fst (snd (start_stream a (s, e)))) =
      audio_samples s ++ samples.
Proof.
  exists (decode_h (slice 1 243 data)).
  split; [now apply decode_packet_ok|].
  rewrite start_stream_eq. cbv zeta. rewrite Hsub, Hone.
  assert (H1 : heard (inflight a StartNotify) e s = s)
    by (unfold heard; now rewrite Hoff).
  rewrite H1.
  assert (H3 : heard [(now, data)]
                 (after_op StartNotify (negb false)
                    (logged (inflight a StartNotify) s e)) s =
               appended (decode_h (slice 1 243 data)) s).
  { unfold heard. cbn [negb after_op notifying].
    rewrite deliver_cons. cbn [fst snd deliver].
    rewrite (handler_settled now t_old data s Hold Hlate).
    now rewrite (decode_packet_ok data Hlen). }
  rewrite H3.
  destruct (fails a (WriteGattChar [x01])); reflexivity.
Qed.

Lemma restart_measures_from_old_start_witness :
  List.length
    (audio_samples
       (fst (snd (start_stream eager
                    (set_is_streaming false streaming_state, initial_env)))))
  = 121%nat.
Proof.
  destruct (restart_measures_from_old_start eager
              (set_is_streaming false streaming_state) initial_env
              0 4000000 sample_packet eq_refl eq_refl eq_refl eq_refl)
    as (samples & Hdec & Ha).
  - vm_compute. discriminate.
  - vm_compute. lia.
  - rewrite Ha. vm_compute in Hdec. injection Hdec as <-. reflexivity.
Defined.

(** ** The end of [main] *)

Lemma leave_connection_eq (closing : list Notification) (fails : bool)
      (s : State) (e : Env) :
  leave_connection closing fails (s, e) =
    (if fails then Raise BleakError else Ok tt,
     (heard closing e s, logged closing s e)).
Proof.
  unfold leave_connection, bind. rewrite suspend_eq.
  destruct fails; reflexivity.
Qed.

(** X16. After the loop [main] awaits the disconnect and then exports
    the capture buffer exactly when it is not empty at that point, so
    samples delivered during the disconnect count. If the disconnect
    raises, [main] ends by that error and nothing is exported. If the
    buffer is empty no file is written. Otherwise, on a file system
    that opens [recorded_audio.wav], the whole buffer is written there
    at 32000 Hz and reads back as the captured samples; on one that
    refuses it, [main] ends by the error of [wave.open] and nothing is
    written. *)
Theorem main_end_exports_capture
        (closing : list Notification) (disconnect_fails opens : bool)
        (s : State) (e : Env) (Hint : buffers_int16 s) :
  let s1 := heard closing e s in
  let e1 := logged closing s e in
  (disconnect_fails = true ->
   main_end closing disconnect_fails opens (s, e) =
     (Raise BleakError, (s1, e1))) /\
  (disconnect_fails = false -> audio_samples s1 = [] ->
   main_end closing disconnect_fails opens (s, e) =
     (Ok NothingCaptured, (s1, e1))) /\
  (disconnect_fails = false -> audio_samples s1 <> [] -> opens = true ->
   exists wv,
     main_end closing disconnect_fails opens (s, e) =
       (Ok Exported, (s1, close_as "recorded_audio.wav" wv e1)) /\
     framerate wv = 32000 /\
     decode_h (frames wv) = audio_samples s1) /\
  (disconnect_fails = false -> audio_samples s1 <> [] -> opens = false ->
   main_end closing disconnect_fails opens (s, e) =
     (Raise OSError, (s1, e1))).
Proof.
  cbv zeta.
  pose proof (heard_int16 closing e s Hint) as [Ha _].
  assert (Hm : main_end closing disconnect_fails opens (s, e) =
               if disconnect_fails
               then (Raise BleakError,
                     (heard closing e s, logged closing s e))
               else export_capture_fs opens
                      (heard closing e s, logged closing s e)).
  { unfold main_end, bind. rewrite leave_connection_eq.
    destruct disconnect_fails; reflexivity. }
  rewrite Hm. clear Hm.
  remember (heard closing e s) as s1 eqn:Es1.
  remember (logged closing s e) as e1 eqn:Ee1.
  unfold export_capture_fs, bind, on_state, on_env, get, ret.
  cbn [fst snd].
  split; [|split; [|split]].
  - intros ->. reflexivity.
  - intros -> ->. reflexivity.
  - intros -> Hne ->.
    destruct (audio_samples s1) as [|v vs] eqn:E; [contradiction|].
    cbn [List.length Nat.eqb]. unfold save_recording_fs. cbv iota.
    destruct (save_recording_wav "recorded_audio.wav" (v :: vs) e1 Ha)
      as (wv & Esave & _ & _ & _ & Hrate & _ & Hdec & _).
    exists wv. cbn [fst snd]. rewrite Esave. auto.
  - intros -> Hne ->.
    destruct (audio_samples s1) as [|v vs] eqn:E; [contradiction|].
    reflexivity.
Qed.

Lemma main_end_exports_capture_witness :
  (exists wv,
     main_end [(2000000, sample_packet)] false true
       (streaming_state, subscribed_env) =
       (Ok Exported,
        (heard [(2000000, sample_packet)] subscribed_env streaming_state,
         close_as "recorded_audio.wav" wv
           (logged [(2000000, sample_packet)] streaming_state
              subscribed_env))) /\
     List.length (decode_h (frames wv)) = 121%nat) /\
  main_end [] false true (streaming_state, subscribed_env) =
    (Ok NothingCaptured,
     (streaming_state, logged [] streaming_state subscribed_env)) /\
  fst (main_end [(2000000, sample_packet)] false false
         (streaming_state, subscribed_env)) = Raise OSError /\
  fst (main_end [(2000000, sample_packet)] true true
         (streaming_state, subscribed_env)) = Raise BleakError.
Proof.
  assert (Hint : buffers_int16 streaming_state) by (split; constructor).
  split; [|split; [|split]].
  - destruct (main_end_exports_capture [(2000000, sample_packet)] false true
                streaming_state subscribed_env Hint) as (_ & _ & H & _).
    destruct (H eq_refl) as (wv & E & _ & Hdec);
      [vm_compute; discriminate | reflexivity |].
    exists wv. split; [exact E|]. rewrite Hdec. vm_compute. reflexivity.
  - destruct (main_end_exports_capture [] false true
                streaming_state subscribed_env Hint) as (_ & H & _).
    exact (H eq_refl eq_refl).
  - destruct (main_end_exports_capture [(2000000, sample_packet)] false false
                streaming_state subscribed_env Hint) as (_ & _ & _ & H).
    rewrite H; [reflexivity | reflexivity | vm_compute; discriminate
                | reflexivity].
  - destruct (main_end_exports_capture [(2000000, sample_packet)] true true
                streaming_state subscribed_env Hint) as (H & _).
    now rewrite (H eq_refl).
Defined.

(** ** The scan *)

Section ScanFacts.
Import Locator.

Lemma last_in {A} (l : list A) (d : A) : l <> [] -> In (last l d) l.
Proof.
  intros Hne. destruct (exists_last Hne) as (l' & z & ->).
  rewrite last_last. apply in_or_app. right. now left.
Qed.

Lemma matching_accepted (xs : list Sighting) (m : option BLEDevice) :
  In m (matching xs) -> accepts m = true.
Proof.
  unfold matching. intros H. apply in_map_iff in H as (x & <- & Hf).
  now apply filter_In in Hf.
Qed.

Lemma matching_nil_iff (xs : list Sighting) :
  matching xs = [] <-> forall x, In x xs -> accepts (snd x) = false.
Proof.
  split; [|apply matching_nil].
  intros Hnil x Hx. destruct (accepts (snd x)) eqn:A; [|reflexivity].
  assert (Hin : In (snd x) (matching xs))
    by (apply in_map, filter_In; now split).
  rewrite Hnil in Hin. destruct Hin.
Qed.

Lemma last_match_none (xs : list Sighting) :
  last (matching xs) None = None <-> matching xs = [].
Proof.
  split; [|now intros ->].
  intros Hlast. destruct (matching xs) as [|m ms] eqn:E; [reflexivity|].
  assert (Hin : In (last (m :: ms) None) (matching xs))
    by (rewrite E; apply last_in; discriminate).
  rewrite Hlast in Hin. apply matching_accepted in Hin. discriminate.
Qed.

Lemma found_event_iff (xs : list Sighting) : forall l : Scan,
  found_event (run_callbacks xs l) = true <->
  found_event l = true \/ matching xs <> [].
Proof.
  unfold run_callbacks, matching.
  induction xs as [|x xs IH]; intros l; cbn [fold_left filter map].
  - split; [now left | intros [H|H]; [exact H | contradiction]].
  - rewrite IH. unfold detection_callback.
    destruct (accepts (snd x)); cbn [found_event map].
    + split; [intros _; right; discriminate | intros _; now left].
    + reflexivity.
Qed.

(** X17. The scan ends without a device exactly when no accepted
    advertisement was delivered before the scanner had stopped; the
    event is set exactly when a device is stored; and when [main] is
    woken by the event rather than by the timeout, a device is always
    there to connect to. *)
Theorem located_iff_accepted_delivered (lag : Z) (air : list Sighting) :
  (locate lag air = None <->
   forall x, In x (delivered lag air) -> accepts (snd x) = false) /\
  (found_event (run_callbacks (delivered lag air) scan_start) = true <->
   locate lag air <> None) /\
  (0 <= lag -> snd (wait_for_found air) = false -> locate lag air <> None).
Proof.
  assert (Hnone : locate lag air = None <-> matching (delivered lag air) = []).
  { rewrite locate_last. apply last_match_none. }
  split; [|split].
  - rewrite Hnone. apply matching_nil_iff.
  - rewrite found_event_iff, Hnone. cbn [scan_start found_event].
    split; [intros [H|H]; [discriminate | exact H] | intros H; now right].
  - intros Hlag Hwoken. rewrite Hnone, matching_nil_iff. intros Hall.
    unfold wait_for_found in Hwoken.
    destruct (first_accepted air) as [[t d]|] eqn:F; [|discriminate].
    pose proof (first_accepted_in air (t, d) F) as [Hin Hacc].
    assert (Hw : fst (wait_for_found air) = t).
    { unfold wait_for_found. rewrite F.
      destruct (t <? SCAN_TIMEOUT_US); [reflexivity | discriminate]. }
    assert (Hdel : In (t, d) (delivered lag air)).
    { unfold delivered. apply filter_In. split; [exact Hin|].
      rewrite Hw. cbn [fst]. apply Z.leb_le. lia. }
    specialize (Hall _ Hdel). congruence.
Qed.

End ScanFacts.

Lemma located_iff_accepted_delivered_witness :
  Locator.locate 0 two_amuas <> None /\
  Locator.locate 0
    [(1000000, Some {| Locator.name := Some "amua-x"%string;
                       Locator.address := "D5:91:CC:7A:AC:E4"%string |});
     (2000000, Some {| Locator.name := Some "Amua-X"%string;
                       Locator.address := "d5:91:cc:7a:ac:e4"%string |});
     (3000000, Some {| Locator.name := None;
                       Locator.address := "D5:91:CC:7A:AC:E4"%string |})]
    = None.
Proof.
  split.
  - apply (located_iff_accepted_delivered 0 two_amuas); [lia | reflexivity].
  - apply (located_iff_accepted_delivered 0).
    intros x Hx. apply filter_In in Hx as [Hin _].
    destruct Hin as [<-|[<-|[<-|[]]]]; reflexivity.
Defined.

(** ** The hex dump *)

Section HexdumpFacts.
Import Hexdump.

Lemma length_append (a b : string) :
  String.length (a ++ b) = (String.length a + String.length b)%nat.
Proof. induction a as [|c a IH]; cbn; [reflexivity | now rewrite IH]. Qed.

Lemma append_assoc (a b c : string) :
  ((a ++ b) ++ c = a ++ b ++ c)%string.
Proof. induction a as [|x a IH]; cbn; [reflexivity | now rewrite IH]. Qed.

Lemma append_cancel (a b c : string) :
  (a ++ b = a ++ c)%string -> b = c.
Proof.
  induction a as [|x a IH]; cbn; [auto|]. intros H. injection H as H. auto.
Qed.

Lemma chars_append (a b : string) :
  list_ascii_of_string (a ++ b) =
    list_ascii_of_string a ++ list_ascii_of_string b.
Proof. induction a as [|c a IH]; cbn; [reflexivity | now rewrite IH]. Qed.

Lemma hex_chars_append (a b : string) :
  hex_chars (a ++ b) = hex_chars a ++ hex_chars b.
Proof. unfold hex_chars. now rewrite chars_append, filter_app. Qed.

Lemma length_spaces (n : nat) : String.length (spaces n) = n.
Proof. induction n as [|n IH]; cbn; [reflexivity | now rewrite IH]. Qed.

Lemma hex_chars_spaces (n : nat) : hex_chars (spaces n) = [].
Proof. induction n as [|n IH]; [reflexivity | exact IH]. Qed.

Lemma length_ljust (width : nat) (s : string) :
  (String.length s <= width)%nat -> String.length (ljust width s) = width.
Proof.
  intros H. unfold ljust. rewrite length_append, length_spaces. lia.
Qed.

Lemma hex_chars_ljust (width : nat) (s : string) :
  hex_chars (ljust width s) = hex_chars s.
Proof.
  unfold ljust. now rewrite hex_chars_append, hex_chars_spaces, app_nil_r.
Qed.

Lemma byte_below_256 (b : byte) : (N.to_nat (Byte.to_N b) < 256)%nat.
Proof. pose proof (Byte.to_N_bounded b). lia. Qed.

Lemma hex_val_digit (n : nat) : (n < 16)%nat -> hex_val (hex_digit n) = n.
Proof.
  intros H. do 16 (destruct n as [|n]; [reflexivity|]). lia.
Qed.

Lemma is_hex_digit (n : nat) : (n < 16)%nat -> is_hex (hex_digit n) = true.
Proof.
  intros H. do 16 (destruct n as [|n]; [reflexivity|]). lia.
Qed.

Lemma hex_chars_hex2 (b : byte) :
  hex_chars (hex2 b) = list_ascii_of_string (hex2 b).
Proof.
  pose proof (byte_below_256 b) as Hb.
  unfold hex_chars, hex2. cbv zeta. cbn [list_ascii_of_string filter].
  rewrite !is_hex_digit; [reflexivity | |].
  - apply Nat.mod_upper_bound. discriminate.
  - apply Nat.Div0.div_lt_upper_bound. exact Hb.
Qed.

Lemma hex_digit_inj (m n : nat) :
  (m < 16)%nat -> (n < 16)%nat -> hex_digit m = hex_digit n -> m = n.
Proof.
  intros Hm Hn E. apply (f_equal hex_val) in E.
  now rewrite !hex_val_digit in E.
Qed.

Lemma hex2_inj (b1 b2 : byte) : hex2 b1 = hex2 b2 -> b1 = b2.
Proof.
  pose proof (byte_below_256 b1) as H1.
  pose proof (byte_below_256 b2) as H2.
  unfold hex2. cbv zeta.
  remember (N.to_nat (Byte.to_N b1)) as n1 eqn:E1.
  remember (N.to_nat (Byte.to_N b2)) as n2 eqn:E2.
  intros E. injection E as Ehi Elo.
  change (hex_digit (n1 / 16) = hex_digit (n2 / 16)) in Ehi.
  change (hex_digit (n1 mod 16) = hex_digit (n2 mod 16)) in Elo.
  apply hex_digit_inj in Ehi;
    [|apply Nat.Div0.div_lt_upper_bound; assumption..].
  apply hex_digit_inj in Elo;
    [|apply Nat.mod_upper_bound; discriminate..].
  assert (En : n1 = n2).
  { rewrite (Nat.div_mod_eq n1 16), (Nat.div_mod_eq n2 16).
    now rewrite Ehi, Elo. }
  rewrite E1, E2 in En. apply (f_equal Z.of_nat) in En.
  rewrite !N_nat_Z in En. apply N2Z.inj in En.
  assert (Some b1 = Some b2) by (rewrite <- !Byte.of_to_N; now rewrite En).
  congruence.
Qed.

Lemma digits_inj (d1 : list byte) : forall d2, digits d1 = digits d2 -> d1 = d2.
Proof.
  unfold digits.
  induction d1 as [|b1 d1 IH]; intros [|b2 d2]; cbn [flat_map];
    try reflexivity; try discriminate.
  unfold hex2 at 1 3. cbv zeta. cbn [list_ascii_of_string app].
  intros E. injection E as Ehi Elo E.
  f_equal; [|now apply IH].
  apply hex2_inj. unfold hex2. cbv zeta.
  f_equal; [exact Ehi | f_equal; exact Elo].
Qed.

Lemma append_nil_r (a : string) : (a ++ "")%string = a.
Proof. induction a as [|c a IH]; cbn; [reflexivity | now rewrite IH]. Qed.

Lemma join_cons (sep x : string) (xs : list string) :
  String.concat sep (x :: xs) =
    (x ++ String.concat "" (map (fun l => sep ++ l) xs))%string.
Proof.
  revert x. induction xs as [|y ys IH]; intros x.
  - cbn. now rewrite append_nil_r.
  - change (String.concat sep (x :: y :: ys))
      with (x ++ sep ++ String.concat sep (y :: ys))%string.
    rewrite IH. f_equal.
    destruct ys as [|z zs].
    + cbn. now rewrite append_nil_r.
    + change (String.concat "" (map (fun l => sep ++ l) (y :: z :: zs)))%string
        with ((sep ++ y) ++ ""
              ++ String.concat "" (map (fun l => sep ++ l) (z :: zs)))%string.
      cbn [append]. now rewrite append_assoc.
Qed.

Lemma hex_chars_join (l : list byte) :
  hex_chars (String.concat " " (map hex2 l)) = digits l.
Proof.
  destruct l as [|b l]; [reflexivity|].
  cbn [map]. rewrite join_cons, hex_chars_append, hex_chars_hex2.
  unfold digits. cbn [flat_map]. f_equal.
  induction l as [|c l IH]; [reflexivity|].
  cbn [map flat_map]. destruct l as [|c' l].
  - cbn [map String.concat flat_map].
    rewrite hex_chars_append, hex_chars_hex2. now rewrite app_nil_r.
  - change (String.concat "" ((" " ++ hex2 c)%string
              :: map (fun l0 => (" " ++ l0)%string) (map hex2 (c' :: l))))
      with ((" " ++ hex2 c) ++ ""
            ++ String.concat "" (map (fun l0 => (" " ++ l0)%string)
                                   (map hex2 (c' :: l))))%string.
    rewrite !hex_chars_append, hex_chars_hex2, IH. reflexivity.
Qed.

Lemma length_join (l : list byte) :
  String.length (String.concat " " (map hex2 l)) = (3 * List.length l - 1)%nat.
Proof.
  induction l as [|b l IH]; [reflexivity|].
  destruct l as [|c l]; [reflexivity|].
  change (String.concat " " (map hex2 (b :: c :: l)))
    with (hex2 b ++ " " ++ String.concat " " (map hex2 (c :: l)))%string.
  rewrite !length_append, IH. cbn [List.length String.length hex2]. lia.
Qed.

Lemma length_dump_line (chunk : list byte) :
  (List.length chunk <= 16)%nat ->
  exists body,
    dump_line chunk = (indent ++ body ++ " |")%string /\
    String.length body = 49%nat /\
    String.length (dump_line chunk) = 91%nat.
Proof.
  intros Hlen. unfold dump_line. cbv zeta. eexists.
  split; [reflexivity|].
  assert (Hbody : forall s, (String.length s <= 49)%nat ->
            String.length (ljust 49 s) = 49%nat /\
            String.length (indent ++ ljust 49 s ++ " |") = 91%nat).
  { intros s Hs. rewrite !length_append, length_ljust by exact Hs.
    unfold indent. rewrite length_spaces. split; reflexivity. }
  apply Hbody.
  pose proof (length_join (firstn 8 chunk)) as Hl.
  pose proof (length_join (skipn 8 chunk)) as Hr.
  rewrite length_firstn in Hl. rewrite length_skipn in Hr.
  destruct (Nat.leb_spec (List.length chunk) 8) as [H8|H8].
  - rewrite length_append, length_ljust by lia. cbn [String.length]. lia.
  - rewrite !length_append, Hl, Hr. cbn [String.length]. lia.
Qed.

Lemma hex_chars_dump_line (chunk : list byte) :
  hex_chars (dump_line chunk) = digits chunk.
Proof.
  unfold dump_line. cbv zeta.
  rewrite !hex_chars_append, hex_chars_ljust.
  unfold indent. rewrite hex_chars_spaces.
  change (hex_chars " |") with (@nil ascii). rewrite app_nil_r. cbn [app].
  destruct (Nat.leb_spec (List.length chunk) 8) as [H8|H8].
  - rewrite hex_chars_append, hex_chars_ljust, hex_chars_join.
    change (hex_chars " ") with (@nil ascii). rewrite app_nil_r.
    now rewrite firstn_all2 by exact H8.
  - rewrite !hex_chars_append, !hex_chars_join.
    change (hex_chars "  ") with (@nil ascii). cbn [app].
    unfold digits. rewrite <- flat_map_app. now rewrite firstn_skipn.
Qed.

Lemma slice_width (i : nat) (data : list byte) :
  slice i (i + line_width) data = firstn 16 (skipn i data).
Proof.
  unfold slice, line_width. now replace (i + 16 - i)%nat with 16%nat by lia.
Qed.

Lemma concat_slices (m : nat) : forall data : list byte,
  (List.length data <= 16 * m)%nat ->
  List.concat (map (fun k => firstn 16 (skipn (16 * k) data)) (seq 0 m)) = data.
Proof.
  induction m as [|m IH]; intros data Hlen.
  - destruct data; [reflexivity | cbn in Hlen; lia].
  - cbn [seq map List.concat]. rewrite <- seq_shift, map_map.
    rewrite (map_ext _ (fun k => firstn 16 (skipn (16 * k) (skipn 16 data)))).
    + rewrite IH by (rewrite length_skipn; lia).
      cbn [Nat.mul skipn]. apply firstn_skipn.
    + intros k. rewrite skipn_skipn. do 2 f_equal. lia.
Qed.

Lemma concat_chunks (data : list byte) : List.concat (chunks data) = data.
Proof.
  unfold chunks, offsets. rewrite map_map.
  rewrite (map_ext _ (fun k => firstn 16 (skipn (16 * k) data)))
    by (intros k; apply slice_width).
  apply concat_slices.
  pose proof (Nat.div_mod_eq (List.length data + 15) 16) as E.
  pose proof (Nat.mod_upper_bound (List.length data + 15) 16) as U. lia.
Qed.

Lemma chunk_length (data chunk : list byte) :
  In chunk (chunks data) -> (List.length chunk <= 16)%nat.
Proof.
  unfold chunks. intros H. apply in_map_iff in H as (i & <- & _).
  rewrite slice_width, length_firstn. lia.
Qed.

Lemma digits_app (a b : list byte) : digits (a ++ b) = digits a ++ digits b.
Proof. unfold digits. apply flat_map_app. Qed.

Lemma hex_chars_lines (cs : list (list byte)) :
  hex_chars (String.concat "" (map (fun l => (newline ++ l)%string)
                                   (map dump_line cs))) =
    digits (List.concat cs).
Proof.
  induction cs as [|c cs IH]; [reflexivity|].
  cbn [List.concat]. rewrite digits_app, <- IH, <- hex_chars_dump_line.
  destruct cs as [|c' cs].
  - cbn [map String.concat]. rewrite hex_chars_append.
    change (hex_chars newline) with (@nil ascii).
    change (hex_chars "") with (@nil ascii). now rewrite app_nil_r.
  - change (String.concat "" (map (fun l => (newline ++ l)%string)
                                (map dump_line (c :: c' :: cs))))
      with ((newline ++ dump_line c) ++ ""
            ++ String.concat "" (map (fun l => (newline ++ l)%string)
                                   (map dump_line (c' :: cs))))%string.
    rewrite !hex_chars_append.
    change (hex_chars newline) with (@nil ascii).
    change (hex_chars "") with (@nil ascii). reflexivity.
Qed.

Lemma hex_chars_after_label (data : list byte) :
  hex_chars (after_label data) = digits data.
Proof.
  unfold after_label. now rewrite hex_chars_lines, concat_chunks.
Qed.

Lemma log_hexdump_inf_eq (label : string) (data : list byte) :
  log_hexdump_inf label data = ((label ++ ": ") ++ after_label data)%string.
Proof.
  unfold log_hexdump_inf, dump_lines, after_label. apply join_cons.
Qed.

(** X18. The dump is laid out in fixed columns: after the label line
    there is one line per 16 bytes of the packet, the last one possibly
    shorter, and every such line is 91 characters long: 40 of
    indentation, 49 of padded hex text, then [ |], so that the bars
    stand in one column. An empty packet gives the label line alone. *)
Theorem hexdump_layout (label : string) (data : list byte) :
  List.length (dump_lines label data) =
    (1 + (List.length data + 15) / 16)%nat /\
  hd ""%string (dump_lines label data) = (label ++ ": ")%string /\
  (forall l, In l (tl (dump_lines label data)) ->
     String.length l = 91%nat /\
     exists body,
       l = (indent ++ body ++ " |")%string /\ String.length body = 49%nat).
Proof.
  unfold dump_lines. cbn [List.length hd tl].
  split; [|split; [reflexivity|]].
  - unfold chunks, offsets. now rewrite !length_map, length_seq.
  - intros l Hl. apply in_map_iff in Hl as (chunk & <- & Hc).
    destruct (length_dump_line chunk (chunk_length data chunk Hc))
      as (body & E & Hb & Hlen).
    split; [exact Hlen|]. now exists body.
Qed.

Lemma hexdump_layout_witness :
  List.length (dump_lines "Audio Packet" sample_packet) = 17%nat /\
  String.length (last (dump_lines "Audio Packet" sample_packet) ""%string)
    = 91%nat.
Proof.
  destruct (hexdump_layout "Audio Packet" sample_packet) as (Hn & _ & Hl).
  split; [rewrite Hn; reflexivity|].
  apply Hl. vm_compute. do 15 right. left. reflexivity.
Defined.

(** X19. The dump loses nothing: two packets logged under the same
    label give the same message only if they are the same packet,
    byte for byte. *)
Theorem hexdump_determines_packet (label : string) (d1 d2 : list byte) :
  log_hexdump_inf label d1 = log_hexdump_inf label d2 -> d1 = d2.
Proof.
  rewrite !log_hexdump_inf_eq. intros E. apply append_cancel in E.
  apply digits_inj. now rewrite <- !hex_chars_after_label, E.
Qed.

Lemma hexdump_determines_packet_witness :
  log_hexdump_inf "Audio Packet" [x00; x01] <>
  log_hexdump_inf "Audio Packet" [x00; x10].
Proof.
  intros E. apply hexdump_determines_packet in E. discriminate E.
Defined.

End HexdumpFacts.
